(** * The tiling demo of [tiling/main.cc]

    A shallow embedding of class [Demo]: the grid layout and the animated
    per-tile height of [draw_grid], the two passes of [render], the clock of
    [render_and_step] and the random phases of [initialize_heights].

    Conventions.
    - C++ [float] and [double] values are read as real numbers ([R]), and
      the statements below are about exact real arithmetic, except for the
      clock of claim C8, where the rounding of [float] is written out.
    - C++ [int] values are [Z]; no computation of the demo leaves the range of
      a 32-bit integer.
    - [render] is a [const] member function whose only effect is the sequence
      of calls it makes to OpenGL and to the objects of [shader_program.h],
      [geometry.h] and [shadow_buffer.h]; it is modelled as the list of these
      calls, in program order.
    - [std::rand] is the sequence of the values it returns, read through a
      counter of the calls made so far. *)

From Stdlib Require Import Reals ZArith String List Lia Lra.
Import ListNotations.
Local Open Scope R_scope.

(** ** The part of glm that [main.cc] uses

    The functions are the ones of glm with its default conventions (column
    vectors, right-handed, clip depth from -1 to 1), over the reals. *)

Module glm.

Record vec2 := Vec2 { x2 : R; y2 : R }.
Record vec3 := Vec3 { x3 : R; y3 : R; z3 : R }.
Record vec4 := Vec4 { x4 : R; y4 : R; z4 : R; w4 : R }.

(** A [glm::mat4] is column-major: [m[c]] is column [c]. *)
Record mat4 := Mat4 { col0 : vec4; col1 : vec4; col2 : vec4; col3 : vec4 }.

Definition add4 (a b : vec4) : vec4 :=
  Vec4 (x4 a + x4 b) (y4 a + y4 b) (z4 a + z4 b) (w4 a + w4 b).

Definition scale4 (a : vec4) (s : R) : vec4 :=
  Vec4 (x4 a * s) (y4 a * s) (z4 a * s) (w4 a * s).

Definition sub3 (a b : vec3) : vec3 :=
  Vec3 (x3 a - x3 b) (y3 a - y3 b) (z3 a - z3 b).

Definition scale3 (a : vec3) (s : R) : vec3 :=
  Vec3 (x3 a * s) (y3 a * s) (z3 a * s).

Definition dot (a b : vec3) : R := x3 a * x3 b + y3 a * y3 b + z3 a * z3 b.

Definition cross (a b : vec3) : vec3 :=
  Vec3 (y3 a * z3 b - y3 b * z3 a)
       (z3 a * x3 b - z3 b * x3 a)
       (x3 a * y3 b - x3 b * y3 a).

Definition normalize (v : vec3) : vec3 := scale3 v (1 / sqrt (dot v v)).

(** [glm::mat4(s)]: [s] on the diagonal. *)
Definition diag (s : R) : mat4 :=
  Mat4 (Vec4 s 0 0 0) (Vec4 0 s 0 0) (Vec4 0 0 s 0) (Vec4 0 0 0 s).

(** [m * v] *)
Definition mul_vec (m : mat4) (v : vec4) : vec4 :=
  add4 (add4 (add4 (scale4 (col0 m) (x4 v)) (scale4 (col1 m) (y4 v)))
             (scale4 (col2 m) (z4 v)))
       (scale4 (col3 m) (w4 v)).

(** [a * b] *)
Definition mul (a b : mat4) : mat4 :=
  Mat4 (mul_vec a (col0 b)) (mul_vec a (col1 b))
       (mul_vec a (col2 b)) (mul_vec a (col3 b)).

Definition translate (m : mat4) (v : vec3) : mat4 :=
  Mat4 (col0 m) (col1 m) (col2 m)
       (add4 (add4 (add4 (scale4 (col0 m) (x3 v)) (scale4 (col1 m) (y3 v)))
                   (scale4 (col2 m) (z3 v)))
             (col3 m)).

Definition rotate (m : mat4) (angle : R) (v : vec3) : mat4 :=
  let c := cos angle in
  let s := sin angle in
  let axis := normalize v in
  let temp := scale3 axis (1 - c) in
  let r00 := c + x3 temp * x3 axis in
  let r01 := x3 temp * y3 axis + s * z3 axis in
  let r02 := x3 temp * z3 axis - s * y3 axis in
  let r10 := y3 temp * x3 axis - s * z3 axis in
  let r11 := c + y3 temp * y3 axis in
  let r12 := y3 temp * z3 axis + s * x3 axis in
  let r20 := z3 temp * x3 axis + s * y3 axis in
  let r21 := z3 temp * y3 axis - s * x3 axis in
  let r22 := c + z3 temp * z3 axis in
  let lin a b c' :=
    add4 (add4 (scale4 (col0 m) a) (scale4 (col1 m) b)) (scale4 (col2 m) c') in
  Mat4 (lin r00 r01 r02) (lin r10 r11 r12) (lin r20 r21 r22) (col3 m).

Definition ortho (left right bottom top zNear zFar : R) : mat4 :=
  Mat4 (Vec4 (2 / (right - left)) 0 0 0)
       (Vec4 0 (2 / (top - bottom)) 0 0)
       (Vec4 0 0 (- (2 / (zFar - zNear))) 0)
       (Vec4 (- ((right + left) / (right - left)))
             (- ((top + bottom) / (top - bottom)))
             (- ((zFar + zNear) / (zFar - zNear)))
             1).

Definition lookAt (eye center up : vec3) : mat4 :=
  let f := normalize (sub3 center eye) in
  let s := normalize (cross f up) in
  let u := cross s f in
  Mat4 (Vec4 (x3 s) (x3 u) (- x3 f) 0)
       (Vec4 (y3 s) (y3 u) (- y3 f) 0)
       (Vec4 (z3 s) (z3 u) (- z3 f) 0)
       (Vec4 (- dot s eye) (- dot u eye) (dot f eye) 1).

Definition perspective (fovy aspect zNear zFar : R) : mat4 :=
  let tanHalfFovy := tan (fovy / 2) in
  Mat4 (Vec4 (1 / (aspect * tanHalfFovy)) 0 0 0)
       (Vec4 0 (1 / tanHalfFovy) 0 0)
       (Vec4 0 0 (- ((zFar + zNear) / (zFar - zNear))) (-1))
       (Vec4 0 0 (- ((2 * zFar * zNear) / (zFar - zNear))) 0).

Definition radians (degrees : R) : R := degrees * (PI / 180).

End glm.

(** ** The calls [Demo] makes *)

Inductive GLenum :=
| GL_BLEND | GL_CULL_FACE | GL_MULTISAMPLE | GL_POLYGON_OFFSET_FILL
| GL_DEPTH_TEST | GL_LESS | GL_LINE_LOOP
| GL_VERTEX_SHADER | GL_GEOMETRY_SHADER | GL_FRAGMENT_SHADER.

Definition GL_DEPTH_BUFFER_BIT : Z := 256.    (* 0x00000100 *)
Definition GL_COLOR_BUFFER_BIT : Z := 16384.  (* 0x00004000 *)

(** The two [gl::shader_program] members and the two [gl::geometry] members
    of [Demo], named as the class names them. *)
Inductive shader_program := program_ | shadow_program_.
Inductive geometry := hexagon_ | diamond_.

Inductive uniform_value :=
| UMat4 (m : glm.mat4)
| UVec3 (v : glm.vec3)
| UFloat (f : R)
| UInt (n : Z).

Inductive gl_call :=
| glDisable (cap : GLenum)
| glEnable (cap : GLenum)
| glViewport (x y w h : Z)
| glClear (mask : Z)
| glClearColor (r g b a : R)
| glDepthFunc (func : GLenum)
| glPolygonOffset (factor units : R)
| glDrawArrays (mode : GLenum) (first count : Z)
| shadow_buffer_bind
| shadow_buffer_unbind
| shadow_buffer_bind_texture
| shader_bind (p : shader_program)
| shader_set_uniform (p : shader_program) (name : string) (v : uniform_value)
| shader_add_shader (p : shader_program) (type : GLenum) (path : string)
| shader_link (p : shader_program)
| geometry_set_data (g : geometry) (verts : list glm.vec2)
| geometry_bind (g : geometry).

(** ** Class [Demo] *)

Definition ShadowWidth : Z := 2048.
Definition ShadowHeight : Z := ShadowWidth.

Definition GridRows : Z := 12.
Definition GridColumns : Z := 12.

(** The data members that hold values. A [std::array] of [std::array]s is
    read as a function of the two indices; the loops of the class only use
    indices inside the arrays. *)
Record Demo := mkDemo {
  hexagon_heights_ : Z -> Z -> R;
  diamond_heights_ : Z -> Z -> R;
  window_width_ : Z;
  window_height_ : Z;
  cur_time_ : R
}.

(** [a[i][j] = v] *)
Definition array_set (a : Z -> Z -> R) (i j : Z) (v : R) : Z -> Z -> R :=
  fun i' j' => if (Z.eqb i' i && Z.eqb j' j)%bool then v else a i' j'.

(** The values [0, 1, ..., n-1] of the index of [for (int i = 0; i < n; ++i)]
    (none when [n <= 0]). *)
Definition range (n : Z) : list Z := map Z.of_nat (seq 0 (Z.to_nat n)).

(** A loop whose body only emits calls. *)
Definition for_emit {A : Type} (n : Z) (body : Z -> list A) : list A :=
  flat_map body (range n).

(** A loop whose body updates a state. *)
Definition for_state {S : Type} (n : Z) (body : Z -> S -> S) (s : S) : S :=
  fold_left (fun acc i => body i acc) (range n) s.

(** The initializer of the local [height] in both loops of [draw_grid]. *)
Definition height (cur_time phase : R) : R :=
  2.5 * (1 + sin (cur_time + phase)).

(** The body sets the uniforms on the member [program_]; the parameter
    [program] is not used, as in the source. *)
Definition draw_grid (d : Demo) (program : shader_program) (model : glm.mat4)
  : list gl_call :=
  let cos_30 := cos (PI / 6) in
  (* hexagons *)
  [geometry_bind hexagon_] ++
  for_emit GridRows (fun i =>
    for_emit GridColumns (fun j =>
      let x := 2 * cos_30 * (IZR j - 0.5 * IZR (GridColumns - 1)) in
      let y := 2 * (IZR i - 0.5 * IZR (GridRows - 1)) in
      let t := glm.translate (glm.diag 1) (glm.Vec3 x y 0) in
      [shader_set_uniform program_ "modelMatrix" (UMat4 (glm.mul model t));
       shader_set_uniform program_ "height"
         (UFloat (height (cur_time_ d) (hexagon_heights_ d i j)));
       glDrawArrays GL_LINE_LOOP 0 6])) ++
  (* diamonds *)
  [geometry_bind diamond_] ++
  for_emit (GridRows - 1) (fun i =>
    for_emit (GridColumns - 1) (fun j =>
      let x := 2 * cos_30 * (IZR j - 0.5 * IZR (GridColumns - 2)) in
      let y := 2 * (IZR i - 0.5 * IZR (GridRows - 2)) in
      let t := glm.translate (glm.diag 1) (glm.Vec3 x y 0) in
      [shader_set_uniform program_ "modelMatrix" (UMat4 (glm.mul model t));
       shader_set_uniform program_ "height"
         (UFloat (height (cur_time_ d) (diamond_heights_ d i j)));
       glDrawArrays GL_LINE_LOOP 0 4])).

Definition render (d : Demo) : list gl_call :=
  let light_position := glm.Vec3 (-6) (-12) 15 in
  let model := glm.rotate (glm.diag 1) (0.25 * PI) (glm.Vec3 0 0 1) in
  let light_projection := glm.ortho (-10) 10 (-10) 10 1 50 in
  let light_view :=
    glm.lookAt light_position (glm.Vec3 0 0 0) (glm.Vec3 0 1 0) in
  let projection :=
    glm.perspective (glm.radians 45)
      (IZR (window_width_ d) / IZR (window_height_ d)) 0.1 100 in
  let camera_position := glm.Vec3 0 (-6) 12 in
  let look_at := glm.Vec3 0 0 0 in
  let view := glm.lookAt camera_position look_at (glm.Vec3 0 1 0) in
  [glDisable GL_BLEND;
   glDisable GL_CULL_FACE;
   glEnable GL_MULTISAMPLE;
   (* shadow *)
   glViewport 0 0 ShadowWidth ShadowHeight;
   shadow_buffer_bind;
   glClear GL_DEPTH_BUFFER_BIT;
   shader_bind shadow_program_;
   shader_set_uniform shadow_program_ "viewProjectionMatrix"
     (UMat4 (glm.mul light_projection light_view));
   glEnable GL_POLYGON_OFFSET_FILL;
   glPolygonOffset 4 4] ++
  draw_grid d program_ model ++
  [glDisable GL_POLYGON_OFFSET_FILL;
   shadow_buffer_unbind;
   (* render *)
   glViewport 0 0 (window_width_ d) (window_height_ d);
   glClearColor 0 0 0 0;
   glClear (Z.lor GL_COLOR_BUFFER_BIT GL_DEPTH_BUFFER_BIT);
   glEnable GL_DEPTH_TEST;
   glDepthFunc GL_LESS;
   shadow_buffer_bind_texture;
   shader_bind program_;
   shader_set_uniform program_ "viewProjectionMatrix"
     (UMat4 (glm.mul projection view));
   shader_set_uniform program_ "lightPosition" (UVec3 light_position);
   shader_set_uniform program_ "color" (UVec3 (glm.Vec3 1 1 1));
   shader_set_uniform program_ "lightViewProjection"
     (UMat4 (glm.mul light_projection light_view));
   shader_set_uniform program_ "shadowMapTexture" (UInt 0)] ++
  draw_grid d program_ model.

(** [render(); cur_time_ += dt;]: the calls of the frame and the object
    after the call. *)
Definition render_and_step (d : Demo) (dt : R) : list gl_call * Demo :=
  let frame := render d in
  (frame,
   mkDemo (hexagon_heights_ d) (diamond_heights_ d)
          (window_width_ d) (window_height_ d) (cur_time_ d + dt)).

(** The frame loop of [main]: one [render_and_step] per frame, with the
    elapsed times [dts] the frames are given; the frames drawn and the
    object after the last of them. *)
Fixpoint run (d : Demo) (dts : list R) : list (list gl_call) * Demo :=
  match dts with
  | [] => ([], d)
  | dt :: rest =>
      let (frame, d1) := render_and_step d dt in
      let (frames, d2) := run d1 rest in
      (frame :: frames, d2)
  end.

Definition initialize_shader : list gl_call :=
  [shader_add_shader shadow_program_ GL_VERTEX_SHADER "shaders/shadow.vert";
   shader_add_shader shadow_program_ GL_GEOMETRY_SHADER "shaders/shadow.geom";
   shader_add_shader shadow_program_ GL_FRAGMENT_SHADER "shaders/shadow.frag";
   shader_link shadow_program_;
   shader_add_shader program_ GL_VERTEX_SHADER "shaders/tile.vert";
   shader_add_shader program_ GL_GEOMETRY_SHADER "shaders/tile.geom";
   shader_add_shader program_ GL_FRAGMENT_SHADER "shaders/tile.frag";
   shader_link program_].

Definition initialize_geometry : list gl_call :=
  let cos_30 := cos (PI / 6) in
  let hexagon_verts :=
    [glm.Vec2 cos_30 0.5; glm.Vec2 0 1; glm.Vec2 (- cos_30) 0.5;
     glm.Vec2 (- cos_30) (-0.5); glm.Vec2 0 (-1); glm.Vec2 cos_30 (-0.5)] in
  let diamond_verts :=
    [glm.Vec2 cos_30 0; glm.Vec2 0 0.5; glm.Vec2 (- cos_30) 0;
     glm.Vec2 0 (-0.5)] in
  [geometry_set_data hexagon_ hexagon_verts;
   geometry_set_data diamond_ diamond_verts].

(** ** The random phases *)

Section Heights.

(** [RAND_MAX] of the C library, and the values [std::rand] returns: call
    number [k] (from 0) returns [rand_seq k]. *)
Variable RAND_MAX : Z.
Variable rand_seq : nat -> Z.

(** [std::rand()], on the number of calls made so far. *)
Definition std_rand (calls : nat) : Z * nat := (rand_seq calls, S calls).

(** The first pair of loops works on [hexagon_heights_] and the second on
    [diamond_heights_]; the count of calls of [std::rand] runs through
    both. *)
Definition initialize_heights (d : Demo) (calls : nat) : Demo * nat :=
  let '(hexagon_heights, calls1) :=
    for_state GridRows (fun i =>
      for_state GridColumns (fun j '(a, n) =>
        let '(r, n1) := std_rand n in
        (array_set a i j (2.5 * IZR r / IZR RAND_MAX), n1)))
      (hexagon_heights_ d, calls) in
  let '(diamond_heights, calls2) :=
    for_state (GridRows - 1) (fun i =>
      for_state (GridColumns - 1) (fun j '(a, n) =>
        let '(r, n1) := std_rand n in
        (array_set a i j (2.5 * IZR r / IZR RAND_MAX), n1)))
      (diamond_heights_ d, calls1) in
  (mkDemo hexagon_heights diamond_heights
          (window_width_ d) (window_height_ d) (cur_time_ d),
   calls2).

(** The constructor. The two arrays have no initializer: [hexagon0] and
    [diamond0] are whatever they hold before [initialize_heights] runs.
    The result is the calls made, the object, and the number of calls of
    [std::rand] made so far. *)
Definition Demo_new (window_width window_height : Z)
    (hexagon0 diamond0 : Z -> Z -> R) (calls : nat)
  : list gl_call * Demo * nat :=
  let d0 := mkDemo hexagon0 diamond0 window_width window_height 0 in
  let (d1, calls1) := initialize_heights d0 calls in
  (initialize_shader ++ initialize_geometry, d1, calls1).

End Heights.

(** ** Reading a sequence of calls *)

(** The index of slot [(i, j)] in a row-major walk of a grid with [cols]
    columns. *)
Definition slot_index (cols i j : Z) : nat := Z.to_nat (i * cols + j).

Definition hexagon_count : nat := Z.to_nat (GridRows * GridColumns).
Definition diamond_count : nat :=
  Z.to_nat ((GridRows - 1) * (GridColumns - 1)).

(** The values given to the uniform [modelMatrix], in order. *)
Definition model_matrices (calls : list gl_call) : list glm.mat4 :=
  flat_map (fun c =>
    match c with
    | shader_set_uniform _ name (UMat4 m) =>
        if String.eqb name "modelMatrix" then [m] else []
    | _ => []
    end) calls.

(** The values given to the uniform [height], in order. *)
Definition heights (calls : list gl_call) : list R :=
  flat_map (fun c =>
    match c with
    | shader_set_uniform _ name (UFloat h) =>
        if String.eqb name "height" then [h] else []
    | _ => []
    end) calls.

(** What a [glDrawArrays] draws with: the geometry bound last, the program
    bound last, and the values last given to [modelMatrix] and [height], on
    whichever program object the call was made. *)
Record draw_state := mkState {
  bound_geometry : option geometry;
  bound_program : option shader_program;
  last_model : option glm.mat4;
  last_height : option R
}.

Definition no_state : draw_state := mkState None None None None.

Definition observe (st : draw_state) (c : gl_call) : draw_state :=
  match c with
  | geometry_bind g =>
      mkState (Some g) (bound_program st) (last_model st) (last_height st)
  | shader_bind p =>
      mkState (bound_geometry st) (Some p) (last_model st) (last_height st)
  | shader_set_uniform _ name (UMat4 m) =>
      if String.eqb name "modelMatrix"
      then mkState (bound_geometry st) (bound_program st) (Some m)
                   (last_height st)
      else st
  | shader_set_uniform _ name (UFloat h) =>
      if String.eqb name "height"
      then mkState (bound_geometry st) (bound_program st) (last_model st)
                   (Some h)
      else st
  | _ => st
  end.

Record tile_draw := mkTile {
  tile_geometry : option geometry;
  tile_model : option glm.mat4;
  tile_height : option R;
  tile_mode : GLenum;
  tile_first : Z;
  tile_count : Z
}.

(** Reading a sequence of calls from left to right: [read] says what is
    kept of a call, given what the calls before it have set. *)
Fixpoint read_from {B : Type} (read : draw_state -> gl_call -> list B)
    (st : draw_state) (calls : list gl_call) : list B :=
  match calls with
  | [] => []
  | c :: rest => read st c ++ read_from read (observe st c) rest
  end.

(** The draws of a sequence of calls, each with what it draws. *)
Definition draw_of (st : draw_state) (c : gl_call) : list tile_draw :=
  match c with
  | glDrawArrays mode first count =>
      [mkTile (bound_geometry st) (last_model st) (last_height st)
              mode first count]
  | _ => []
  end.

Definition tile_draws (calls : list gl_call) : list tile_draw :=
  read_from draw_of no_state calls.

(** The per-tile uniforms set: for each call that sets [modelMatrix] or
    [height], the program bound at that point and the program the call is
    made on. *)
Definition target_of (st : draw_state) (c : gl_call)
  : list (option shader_program * shader_program) :=
  match c with
  | shader_set_uniform p name _ =>
      if (String.eqb name "modelMatrix" || String.eqb name "height")%bool
      then [(bound_program st, p)] else []
  | _ => []
  end.

Definition tile_uniform_targets (calls : list gl_call)
  : list (option shader_program * shader_program) :=
  read_from target_of no_state calls.

(** The calls of a frame up to the call that unbinds the shadow buffer, and
    the calls after it. *)
Fixpoint shadow_pass (calls : list gl_call) : list gl_call :=
  match calls with
  | [] => []
  | shadow_buffer_unbind :: _ => []
  | c :: rest => c :: shadow_pass rest
  end.

Fixpoint color_pass (calls : list gl_call) : list gl_call :=
  match calls with
  | [] => []
  | shadow_buffer_unbind :: rest => rest
  | _ :: rest => color_pass rest
  end.

(** The tiles [draw_grid] is to draw for an object: all hexagons, row by
    row, then all diamonds, row by row. *)
Definition hexagon_model (model : glm.mat4) (i j : Z) : glm.mat4 :=
  glm.mul model
    (glm.translate (glm.diag 1)
       (glm.Vec3 (2 * cos (PI / 6) * (IZR j - 0.5 * IZR (GridColumns - 1)))
                 (2 * (IZR i - 0.5 * IZR (GridRows - 1))) 0)).

Definition diamond_model (model : glm.mat4) (i j : Z) : glm.mat4 :=
  glm.mul model
    (glm.translate (glm.diag 1)
       (glm.Vec3 (2 * cos (PI / 6) * (IZR j - 0.5 * IZR (GridColumns - 2)))
                 (2 * (IZR i - 0.5 * IZR (GridRows - 2))) 0)).

(** A row-major walk of a grid of [rows] by [cols] slots. *)
Definition grid {A : Type} (rows cols : Z) (f : Z -> Z -> A) : list A :=
  for_emit rows (fun i => for_emit cols (fun j => [f i j])).

Definition hexagon_tile (d : Demo) (model : glm.mat4) (i j : Z) : tile_draw :=
  mkTile (Some hexagon_) (Some (hexagon_model model i j))
         (Some (height (cur_time_ d) (hexagon_heights_ d i j)))
         GL_LINE_LOOP 0 6.

Definition diamond_tile (d : Demo) (model : glm.mat4) (i j : Z) : tile_draw :=
  mkTile (Some diamond_) (Some (diamond_model model i j))
         (Some (height (cur_time_ d) (diamond_heights_ d i j)))
         GL_LINE_LOOP 0 4.

Definition all_tiles (d : Demo) (model : glm.mat4) : list tile_draw :=
  grid GridRows GridColumns (hexagon_tile d model) ++
  grid (GridRows - 1) (GridColumns - 1) (diamond_tile d model).

(** The [model] of [render]. *)
Definition render_model : glm.mat4 :=
  glm.rotate (glm.diag 1) (0.25 * PI) (glm.Vec3 0 0 1).

(** The object with its clock set to [t]. *)
Definition at_time (d : Demo) (t : R) : Demo :=
  mkDemo (hexagon_heights_ d) (diamond_heights_ d)
         (window_width_ d) (window_height_ d) t.

Definition sum (l : list R) : R := fold_right Rplus 0 l.

(** The calls of one tile, and the calls of [render] before each of its
    two calls of [draw_grid]: names for parts of the definitions above. *)
Definition hexagon_block (d : Demo) (model : glm.mat4) (i j : Z)
  : list gl_call :=
  [shader_set_uniform program_ "modelMatrix" (UMat4 (hexagon_model model i j));
   shader_set_uniform program_ "height"
     (UFloat (height (cur_time_ d) (hexagon_heights_ d i j)));
   glDrawArrays GL_LINE_LOOP 0 6].

Definition diamond_block (d : Demo) (model : glm.mat4) (i j : Z)
  : list gl_call :=
  [shader_set_uniform program_ "modelMatrix" (UMat4 (diamond_model model i j));
   shader_set_uniform program_ "height"
     (UFloat (height (cur_time_ d) (diamond_heights_ d i j)));
   glDrawArrays GL_LINE_LOOP 0 4].

Definition light_view_projection : glm.mat4 :=
  glm.mul (glm.ortho (-10) 10 (-10) 10 1 50)
          (glm.lookAt (glm.Vec3 (-6) (-12) 15) (glm.Vec3 0 0 0)
                      (glm.Vec3 0 1 0)).

Definition shadow_setup : list gl_call :=
  [glDisable GL_BLEND;
   glDisable GL_CULL_FACE;
   glEnable GL_MULTISAMPLE;
   glViewport 0 0 ShadowWidth ShadowHeight;
   shadow_buffer_bind;
   glClear GL_DEPTH_BUFFER_BIT;
   shader_bind shadow_program_;
   shader_set_uniform shadow_program_ "viewProjectionMatrix"
     (UMat4 light_view_projection);
   glEnable GL_POLYGON_OFFSET_FILL;
   glPolygonOffset 4 4].

Definition color_setup (d : Demo) : list gl_call :=
  [glViewport 0 0 (window_width_ d) (window_height_ d);
   glClearColor 0 0 0 0;
   glClear (Z.lor GL_COLOR_BUFFER_BIT GL_DEPTH_BUFFER_BIT);
   glEnable GL_DEPTH_TEST;
   glDepthFunc GL_LESS;
   shadow_buffer_bind_texture;
   shader_bind program_;
   shader_set_uniform program_ "viewProjectionMatrix"
     (UMat4 (glm.mul
               (glm.perspective (glm.radians 45)
                  (IZR (window_width_ d) / IZR (window_height_ d)) 0.1 100)
               (glm.lookAt (glm.Vec3 0 (-6) 12) (glm.Vec3 0 0 0)
                           (glm.Vec3 0 1 0))));
   shader_set_uniform program_ "lightPosition"
     (UVec3 (glm.Vec3 (-6) (-12) 15));
   shader_set_uniform program_ "color" (UVec3 (glm.Vec3 1 1 1));
   shader_set_uniform program_ "lightViewProjection"
     (UMat4 light_view_projection);
   shader_set_uniform program_ "shadowMapTexture" (UInt 0)].

(** The calls [draw_grid] makes: a geometry is bound, a uniform is set on
    [program_], or a line loop is drawn. *)
Definition grid_call (c : gl_call) : bool :=
  match c with
  | geometry_bind _ => true
  | shader_set_uniform program_ _ _ => true
  | glDrawArrays GL_LINE_LOOP _ _ => true
  | _ => false
  end.

(** The body of the inner loops of [initialize_heights], for a body that
    stores [v n] when it makes call number [n] of [std::rand]. *)
Definition fill_body (v : nat -> R) (i j : Z) (s : (Z -> Z -> R) * nat)
  : (Z -> Z -> R) * nat :=
  let '(a, n) := s in (array_set a i j (v n), S n).

(** ** The specification's formulas *)

(** The world-space offset of a hexagon slot and of a diamond slot as the
    specification gives them, for a hexagon grid of [Rows] by [Columns]
    slots, with the angle of 30 degrees in radians. *)
Definition spec_hexagon_offset (Rows Columns i j : Z) : glm.vec3 :=
  glm.Vec3 (2 * cos (glm.radians 30) * (IZR j - (IZR Columns - 1) / 2))
           (2 * (IZR i - (IZR Rows - 1) / 2))
           0.

Definition spec_diamond_offset (Rows Columns i j : Z) : glm.vec3 :=
  glm.Vec3 (2 * cos (glm.radians 30) * (IZR j - (IZR Columns - 2) / 2))
           (2 * (IZR i - (IZR Rows - 2) / 2))
           0.

(** The model matrix of a tile placed at [offset]. *)
Definition placed (model : glm.mat4) (offset : glm.vec3) : glm.mat4 :=
  glm.mul model (glm.translate (glm.diag 1) offset).

(** ** Objects and random sequences used as examples *)

(** A demo in an 800 by 800 window whose phases are all 0, at time 0. *)
Definition demo_zero : Demo :=
  mkDemo (fun _ _ => 0) (fun _ _ => 0) 800 800 0.

(** [RAND_MAX] of glibc, and a sequence of values in its range. *)
Definition glibc_RAND_MAX : Z := 2147483647.

Definition lcg_seq (k : nat) : Z :=
  ((Z.of_nat k * 1103515245 + 12345) mod 2147483648)%Z.

(** A sequence whose first value is [RAND_MAX]. *)
Definition max_first_seq (k : nat) : Z :=
  match k with
  | O => glibc_RAND_MAX
  | S _ => lcg_seq k
  end.

(** ** More of [main.cc] *)

(** The vertex lists of [initialize_geometry], which are [static] locals of
    that function, and the list a geometry member is given. *)
Definition hexagon_verts : list glm.vec2 :=
  let cos_30 := cos (PI / 6) in
  [glm.Vec2 cos_30 0.5; glm.Vec2 0 1; glm.Vec2 (- cos_30) 0.5;
   glm.Vec2 (- cos_30) (-0.5); glm.Vec2 0 (-1); glm.Vec2 cos_30 (-0.5)].

Definition diamond_verts : list glm.vec2 :=
  let cos_30 := cos (PI / 6) in
  [glm.Vec2 cos_30 0; glm.Vec2 0 0.5; glm.Vec2 (- cos_30) 0;
   glm.Vec2 0 (-0.5)].

(** The data a geometry holds after a sequence of calls: that of the last
    [set_data] made on it, if any. *)
Fixpoint data_set (calls : list gl_call) (g : geometry)
  : option (list glm.vec2) :=
  match calls with
  | [] => None
  | c :: rest =>
      match data_set rest g with
      | Some verts => Some verts
      | None =>
          match c, g with
          | geometry_set_data hexagon_ verts, hexagon_ => Some verts
          | geometry_set_data diamond_ verts, diamond_ => Some verts
          | _, _ => None
          end
      end
  end.

(** The [x] and [y] of the two loops of [draw_grid]. *)
Definition hexagon_offset (i j : Z) : R * R :=
  let cos_30 := cos (PI / 6) in
  (2 * cos_30 * (IZR j - 0.5 * IZR (GridColumns - 1)),
   2 * (IZR i - 0.5 * IZR (GridRows - 1))).

Definition diamond_offset (i j : Z) : R * R :=
  let cos_30 := cos (PI / 6) in
  (2 * cos_30 * (IZR j - 0.5 * IZR (GridColumns - 2)),
   2 * (IZR i - 0.5 * IZR (GridRows - 2))).

(** Where a model matrix puts the vertex [v] of a vertex list: the matrix
    times the point [(x, y, 0, 1)]. *)
Definition vertex_position (m : glm.mat4) (v : glm.vec2) : glm.vec4 :=
  glm.mul_vec m (glm.Vec4 (glm.x2 v) (glm.y2 v) 0 1).

(** The OpenGL state [render] changes, as far as the calls of [render] set
    it: the viewport, whether the shadow buffer is the render target, the
    program in use and the five capabilities [render] enables or disables. *)
Record gl_context := mkContext {
  ctx_viewport : option (Z * Z * Z * Z);
  ctx_shadow_target : bool;
  ctx_program : option shader_program;
  ctx_blend : bool;
  ctx_cull_face : bool;
  ctx_multisample : bool;
  ctx_polygon_offset_fill : bool;
  ctx_depth_test : bool
}.

Definition set_cap (cap : GLenum) (on : bool) (c : gl_context) : gl_context :=
  match cap with
  | GL_BLEND =>
      mkContext (ctx_viewport c) (ctx_shadow_target c) (ctx_program c)
                on (ctx_cull_face c) (ctx_multisample c)
                (ctx_polygon_offset_fill c) (ctx_depth_test c)
  | GL_CULL_FACE =>
      mkContext (ctx_viewport c) (ctx_shadow_target c) (ctx_program c)
                (ctx_blend c) on (ctx_multisample c)
                (ctx_polygon_offset_fill c) (ctx_depth_test c)
  | GL_MULTISAMPLE =>
      mkContext (ctx_viewport c) (ctx_shadow_target c) (ctx_program c)
                (ctx_blend c) (ctx_cull_face c) on
                (ctx_polygon_offset_fill c) (ctx_depth_test c)
  | GL_POLYGON_OFFSET_FILL =>
      mkContext (ctx_viewport c) (ctx_shadow_target c) (ctx_program c)
                (ctx_blend c) (ctx_cull_face c) (ctx_multisample c)
                on (ctx_depth_test c)
  | GL_DEPTH_TEST =>
      mkContext (ctx_viewport c) (ctx_shadow_target c) (ctx_program c)
                (ctx_blend c) (ctx_cull_face c) (ctx_multisample c)
                (ctx_polygon_offset_fill c) on
  | _ => c
  end.

Definition context_step (c : gl_context) (call : gl_call) : gl_context :=
  match call with
  | glEnable cap => set_cap cap true c
  | glDisable cap => set_cap cap false c
  | glViewport x y w h =>
      mkContext (Some (x, y, w, h)) (ctx_shadow_target c) (ctx_program c)
                (ctx_blend c) (ctx_cull_face c) (ctx_multisample c)
                (ctx_polygon_offset_fill c) (ctx_depth_test c)
  | shadow_buffer_bind =>
      mkContext (ctx_viewport c) true (ctx_program c)
                (ctx_blend c) (ctx_cull_face c) (ctx_multisample c)
                (ctx_polygon_offset_fill c) (ctx_depth_test c)
  | shadow_buffer_unbind =>
      mkContext (ctx_viewport c) false (ctx_program c)
                (ctx_blend c) (ctx_cull_face c) (ctx_multisample c)
                (ctx_polygon_offset_fill c) (ctx_depth_test c)
  | shader_bind p =>
      mkContext (ctx_viewport c) (ctx_shadow_target c) (Some p)
                (ctx_blend c) (ctx_cull_face c) (ctx_multisample c)
                (ctx_polygon_offset_fill c) (ctx_depth_test c)
  | _ => c
  end.

Definition context_after (c : gl_context) (calls : list gl_call)
  : gl_context :=
  fold_left context_step calls c.

(** The state in which each [glDrawArrays] of a sequence of calls is made. *)
Fixpoint draw_contexts (c : gl_context) (calls : list gl_call)
  : list gl_context :=
  match calls with
  | [] => []
  | call :: rest =>
      match call with
      | glDrawArrays _ _ _ => [c]
      | _ => []
      end ++ draw_contexts (context_step c call) rest
  end.

Definition shader_program_eqb (p q : shader_program) : bool :=
  match p, q with
  | program_, program_ => true
  | shadow_program_, shadow_program_ => true
  | _, _ => false
  end.

(** The values given to the uniform [name] of program [p], in order. *)
Definition uniform_sets (p : shader_program) (name : string)
    (calls : list gl_call) : list uniform_value :=
  flat_map (fun c =>
    match c with
    | shader_set_uniform q n v =>
        if (shader_program_eqb q p && String.eqb n name)%bool
        then [v] else []
    | _ => []
    end) calls.

(** The camera matrix of [render], for a window of [w] by [h]. *)
Definition camera_view_projection (w h : Z) : glm.mat4 :=
  glm.mul (glm.perspective (glm.radians 45) (IZR w / IZR h) 0.1 100)
          (glm.lookAt (glm.Vec3 0 (-6) 12) (glm.Vec3 0 0 0)
                      (glm.Vec3 0 1 0)).

(** The square of the distance of two points, the edges of a closed loop of
    vertices (each vertex to the next, the last to the first), and the point
    opposite to a point. *)
Definition sq_dist (a b : glm.vec2) : R :=
  (glm.x2 a - glm.x2 b) * (glm.x2 a - glm.x2 b) +
  (glm.y2 a - glm.y2 b) * (glm.y2 a - glm.y2 b).

Definition loop_edges (l : list glm.vec2) : list (glm.vec2 * glm.vec2) :=
  combine l (tl l ++ firstn 1 l).

Definition opposite (v : glm.vec2) : glm.vec2 :=
  glm.Vec2 (- glm.x2 v) (- glm.y2 v).

(** The state of the draws of the two passes of a frame of an object, when
    the depth test is [depth_test] as the frame starts. *)
Definition shadow_context (depth_test : bool) : gl_context :=
  mkContext (Some (0, 0, ShadowWidth, ShadowHeight)%Z) true
            (Some shadow_program_) false false true true depth_test.

Definition color_context (d : Demo) : gl_context :=
  mkContext (Some (0, 0, window_width_ d, window_height_ d)%Z) false
            (Some program_) false false true false true.

(** Two objects that [render] cannot tell apart: the same window and clock,
    and the same phases in the slots of the two grids. *)
Definition same_scene (d d' : Demo) : Prop :=
  window_width_ d = window_width_ d' /\
  window_height_ d = window_height_ d' /\
  cur_time_ d = cur_time_ d' /\
  (forall i j, (0 <= i < GridRows)%Z -> (0 <= j < GridColumns)%Z ->
     hexagon_heights_ d i j = hexagon_heights_ d' i j) /\
  (forall i j, (0 <= i < GridRows - 1)%Z -> (0 <= j < GridColumns - 1)%Z ->
     diamond_heights_ d i j = diamond_heights_ d' i j).

(** ** [main] *)

Definition CycleDuration : R := 3.

(** [FramesPerSecond] is 40 when [DUMP_FRAMES] is defined and 60 when it is
    not (the source has the [#define] commented out). *)
Definition FramesPerSecond (DUMP_FRAMES : bool) : Z :=
  if DUMP_FRAMES then 40%Z else 60%Z.

Definition window_width : Z := 800.
Definition window_height : Z := 800.

Definition GLFW_KEY_ESCAPE : Z := 256.
Definition GLFW_PRESS : Z := 1.

(** The key callback of [main]: whether it asks the window to close. *)
Definition key_callback (key scancode action mode : Z) : bool :=
  (Z.eqb key GLFW_KEY_ESCAPE && Z.eqb action GLFW_PRESS)%bool.

(** What [glfwPollEvents] can deliver to the window: a key event, which goes
    to the key callback, or the user's request to close the window, which
    sets the close flag. *)
Inductive window_event :=
| key_event (key scancode action mode : Z)
| close_request.

(** The close flag of the window after [glfwPollEvents] has delivered
    [events]. *)
Definition poll_events (events : list window_event) (should_close : bool)
  : bool :=
  fold_left (fun flag e =>
    match e with
    | key_event key scancode action mode =>
        if key_callback key scancode action mode then true else flag
    | close_request => true
    end) events should_close.

(** [sprintf(path, "%05d.ppm", frame_num)]: the decimal digits of the
    number, padded with zeros on the left to five characters, the sign of a
    negative number counting as one of them and coming first. A number has
    no more decimal digits than binary ones, which bounds the loop. *)
Definition digit_char (d : Z) : Ascii.ascii :=
  Ascii.ascii_of_nat (48 + Z.to_nat d).

Fixpoint decimal_digits (fuel : nat) (n : Z) (acc : string) : string :=
  match fuel with
  | O => acc
  | S fuel' =>
      let acc' := String (digit_char (n mod 10)) acc in
      if (n / 10 =? 0)%Z then acc' else decimal_digits fuel' (n / 10) acc'
  end.

Definition decimal (n : Z) : string :=
  decimal_digits (S (Z.to_nat (Z.log2 n))) n EmptyString.

Fixpoint zeros (n : nat) : string :=
  match n with
  | O => EmptyString
  | S n' => String (digit_char 0) (zeros n')
  end.

Definition pad_zeros (width : nat) (s : string) : string :=
  String.append (zeros (width - String.length s)) s.

Definition format_05d (n : Z) : string :=
  if (n <? 0)%Z
  then String (Ascii.ascii_of_nat 45) (pad_zeros 4 (decimal (- n)))
  else pad_zeros 5 (decimal n).

Definition frame_path (frame_num : Z) : string :=
  String.append (format_05d frame_num) ".ppm".

(** The calls of [main], with the calls of the [Demo] object grouped by the
    member function that makes them. *)
Inductive main_call :=
| window_new (width height : Z) (title : string)
| glfwSetKeyCallback
| demo_new (calls : list gl_call)
| demo_render_and_step (calls : list gl_call)
| dump_frame_to_file (path : string) (width height : Z)
| glfwSwapBuffers
| glfwPollEvents.

(** The frames a run of [main] draws, in order. *)
Definition frames_of (calls : list main_call) : list (list gl_call) :=
  flat_map (fun c =>
    match c with
    | demo_render_and_step frame => [frame]
    | _ => []
    end) calls.

(** The files a run of [main] writes, in order. *)
Definition dumps_of (calls : list main_call) : list string :=
  flat_map (fun c =>
    match c with
    | dump_frame_to_file path _ _ => [path]
    | _ => []
    end) calls.

(** The variables of the loop of [main]: the object, [curTime] (declared
    without [DUMP_FRAMES] only) and [frame_num] (declared with [DUMP_FRAMES]
    only), and what the program has consumed of its surroundings: the number
    of calls of [glfwGetTime] and of [glfwPollEvents] made so far and the
    close flag of the window. *)
Record loop_state := mkLoop {
  ls_demo : Demo;
  ls_curTime : R;
  ls_frame_num : Z;
  ls_time_calls : nat;
  ls_polls : nat;
  ls_should_close : bool
}.

Section Main.

(** Whether [DUMP_FRAMES] is defined; the value call number [k] of
    [glfwGetTime] returns; the events call number [k] of [glfwPollEvents]
    delivers. *)
Variable DUMP_FRAMES : bool.
Variable glfwGetTime : nat -> R.
Variable events : nat -> list window_event.

Definition total_frames : R := CycleDuration * IZR (FramesPerSecond true).

(** The [while] loop. It need not end: [None] is a loop still running after
    [fuel] tests of its condition. *)
Fixpoint main_loop (fuel : nat) (st : loop_state)
  : option (list main_call * loop_state) :=
  match fuel with
  | O => None
  | S fuel' =>
      if ls_should_close st then Some ([], st)
      else if DUMP_FRAMES then
        let dt := 1 / IZR (FramesPerSecond true) in
        let (frame, d1) := render_and_step (ls_demo st) dt in
        let path := frame_path (ls_frame_num st) in
        let frame_num1 := (ls_frame_num st + 1)%Z in
        if Req_dec_T (IZR frame_num1) total_frames
        then Some ([demo_render_and_step frame;
                    dump_frame_to_file path window_width window_height],
                   mkLoop d1 (ls_curTime st) frame_num1 (ls_time_calls st)
                          (ls_polls st) (ls_should_close st))
        else
          match main_loop fuel'
                  (mkLoop d1 (ls_curTime st) frame_num1 (ls_time_calls st)
                          (S (ls_polls st))
                          (poll_events (events (ls_polls st))
                                       (ls_should_close st)))
          with
          | None => None
          | Some (calls, st') =>
              Some (demo_render_and_step frame ::
                    dump_frame_to_file path window_width window_height ::
                    glfwSwapBuffers :: glfwPollEvents :: calls, st')
          end
      else
        let now := glfwGetTime (ls_time_calls st) in
        let dt := now - ls_curTime st in
        let (frame, d1) := render_and_step (ls_demo st) dt in
        match main_loop fuel'
                (mkLoop d1 now (ls_frame_num st) (S (ls_time_calls st))
                        (S (ls_polls st))
                        (poll_events (events (ls_polls st))
                                     (ls_should_close st)))
        with
        | None => None
        | Some (calls, st') =>
            Some (demo_render_and_step frame ::
                  glfwSwapBuffers :: glfwPollEvents :: calls, st')
        end
  end.

(** [main]: the window, the key callback, the object, and the loop. The
    window is new, so its close flag is not set when the loop starts;
    [std::rand] has not been called before the constructor of [Demo]. *)
Definition main (RAND_MAX : Z) (rand_seq : nat -> Z)
    (hexagon0 diamond0 : Z -> Z -> R) (fuel : nat)
  : option (list main_call) :=
  let '(constructor_calls, d, _) :=
    Demo_new RAND_MAX rand_seq window_width window_height
             hexagon0 diamond0 0 in
  let st :=
    if DUMP_FRAMES
    then mkLoop d 0 0 0 0 false
    else mkLoop d (glfwGetTime 0) 0 1 0 false in
  match main_loop fuel st with
  | None => None
  | Some (calls, _) =>
      Some (window_new window_width window_height "demo" ::
            glfwSetKeyCallback ::
            demo_new constructor_calls :: calls)
  end.

End Main.

(** The clock of the object when the loop of [main], started in state [st]
    without [DUMP_FRAMES], draws its frame number [k] (from 0). *)
Definition live_clock (glfwGetTime : nat -> R) (st : loop_state) (k : nat)
  : R :=
  match k with
  | O => cur_time_ (ls_demo st)
  | S k' =>
      cur_time_ (ls_demo st)
      + (glfwGetTime (ls_time_calls st + k')%nat - ls_curTime st)
  end.

(** Reading a decimal number at the start of a string, up to the first
    character that is not a digit. *)
Definition is_digit (c : Ascii.ascii) : bool :=
  ((48 <=? Ascii.nat_of_ascii c) && (Ascii.nat_of_ascii c <=? 57))%nat%bool.

Fixpoint read_decimal (s : string) (acc : Z) : Z :=
  match s with
  | EmptyString => acc
  | String c rest =>
      if is_digit c
      then read_decimal rest
             (10 * acc + (Z.of_nat (Ascii.nat_of_ascii c) - 48))%Z
      else acc
  end.

(** The events that end the loop of [main]: a request to close the window,
    or a press of the Escape key. *)
Definition closes (es : list window_event) : Prop :=
  exists e, In e es /\
    (e = close_request \/
     exists scancode mode,
       e = key_event GLFW_KEY_ESCAPE scancode GLFW_PRESS mode).

(** ** The clock in float arithmetic *)

(** [cur_time_] is a [float], and so is the parameter [dt] of
    [render_and_step]: the argument is converted to [float] at the call, and
    [cur_time_ += dt] stores the sum rounded to [float]. [render_and_step]
    and [run] above carry the exact sum. Here the rounding is written out:
    [rnd x] is the [float] the real number [x] is rounded to, in whatever
    rounding mode the platform has. With the identity for [rnd] the two
    definitions are [render_and_step] and [run]. *)
Definition render_and_step_float (rnd : R -> R) (d : Demo) (dt : R)
  : list gl_call * Demo :=
  let frame := render d in
  (frame,
   mkDemo (hexagon_heights_ d) (diamond_heights_ d)
          (window_width_ d) (window_height_ d)
          (rnd (cur_time_ d + rnd dt))).

Fixpoint run_float (rnd : R -> R) (d : Demo) (dts : list R)
  : list (list gl_call) * Demo :=
  match dts with
  | [] => ([], d)
  | dt :: rest =>
      let (frame, d1) := render_and_step_float rnd d dt in
      let (frames, d2) := run_float rnd d1 rest in
      (frame :: frames, d2)
  end.

(** The numbers a [float] of 32 bits can hold: a significand of 24 bits times
    a power of two. The range of the exponent is left out, so the set is
    larger than that of the floats, not smaller. *)
Definition binary32 (x : R) : Prop :=
  exists (m : Z) (n : nat),
    (Z.abs m < 2 ^ 24)%Z /\ (x = IZR m * 2 ^ n \/ x = IZR m / 2 ^ n).

(** A rounding used as an example: down to a whole number. *)
Definition round_down (x : R) : R := IZR (Int_part x).

(** * Lemmas *)

(** ** Loops and grids *)

Section Lists.

Context {A B : Type}.

Lemma flat_map_flat_map {C : Type} (g : B -> list C) (f : A -> list B) l :
  flat_map g (flat_map f l) = flat_map (fun a => flat_map g (f a)) l.
Proof.
  induction l as [|a l IH]; simpl; [reflexivity|].
  now rewrite flat_map_app, IH.
Qed.

Lemma flat_map_singleton (f : A -> B) l :
  flat_map (fun a => [f a]) l = map f l.
Proof. induction l; simpl; congruence. Qed.

Lemma flat_map_repeat (x : B) (k : nat) (l : list A) :
  flat_map (fun _ => repeat x k) l = repeat x (length l * k).
Proof.
  induction l as [|a l IH]; simpl; [reflexivity|].
  now rewrite IH, repeat_app.
Qed.

Lemma nth_error_rows (f : A -> list B) (lr : list A) (n m k : nat) a b :
  (forall a', length (f a') = k) ->
  nth_error lr n = Some a ->
  nth_error (f a) m = Some b ->
  nth_error (flat_map f lr) (n * k + m) = Some b.
Proof.
  intros Hlen. revert n.
  induction lr as [|a0 lr IH]; intros [|n] Ha Hb; simpl in *; try discriminate.
  - injection Ha as ->. rewrite nth_error_app1; [assumption|].
    apply nth_error_Some. congruence.
  - rewrite nth_error_app2 by (rewrite Hlen; lia).
    rewrite Hlen. replace (k + n * k + m - k)%nat with (n * k + m)%nat by lia.
    now apply IH.
Qed.

End Lists.

Lemma range_length n : length (range n) = Z.to_nat n.
Proof. unfold range. now rewrite length_map, length_seq. Qed.

Lemma range_nth n i :
  (0 <= i < n)%Z -> nth_error (range n) (Z.to_nat i) = Some i.
Proof.
  intros H. unfold range.
  rewrite nth_error_map, nth_error_seq.
  destruct (Nat.ltb_spec (Z.to_nat i) (Z.to_nat n)); [|lia].
  simpl. f_equal. lia.
Qed.

Lemma range_In n i : In i (range n) <-> (0 <= i < n)%Z.
Proof.
  unfold range. rewrite in_map_iff. split.
  - intros (k & <- & Hk). apply in_seq in Hk. lia.
  - intros H. exists (Z.to_nat i). split; [lia|]. apply in_seq. lia.
Qed.

Lemma grid_rows {A} rows cols (f : Z -> Z -> A) :
  grid rows cols f = flat_map (fun i => map (f i) (range cols)) (range rows).
Proof.
  unfold grid, for_emit. apply flat_map_ext. intros i.
  apply flat_map_singleton.
Qed.

Lemma grid_length {A} rows cols (f : Z -> Z -> A) :
  length (grid rows cols f) = (Z.to_nat rows * Z.to_nat cols)%nat.
Proof.
  rewrite grid_rows. rewrite <- (range_length rows).
  induction (range rows) as [|i l IH]; simpl; [reflexivity|].
  now rewrite length_app, length_map, range_length, IH.
Qed.

Lemma grid_nth {A} rows cols (f : Z -> Z -> A) i j :
  (0 <= i < rows)%Z -> (0 <= j < cols)%Z ->
  nth_error (grid rows cols f) (slot_index cols i j) = Some (f i j).
Proof.
  intros Hi Hj. rewrite grid_rows. unfold slot_index.
  replace (Z.to_nat (i * cols + j))
    with (Z.to_nat i * Z.to_nat cols + Z.to_nat j)%nat by nia.
  apply nth_error_rows with (a := i).
  - intros a. now rewrite length_map, range_length.
  - now apply range_nth.
  - rewrite nth_error_map, range_nth by assumption. reflexivity.
Qed.

Lemma grid_In {A} rows cols (f : Z -> Z -> A) x :
  In x (grid rows cols f) ->
  exists i j, (0 <= i < rows)%Z /\ (0 <= j < cols)%Z /\ x = f i j.
Proof.
  rewrite grid_rows, in_flat_map. intros (i & Hi & Hx).
  apply in_map_iff in Hx. destruct Hx as (j & <- & Hj).
  exists i, j. now rewrite <- !range_In.
Qed.


(** ** [draw_grid] and [render], unfolded *)

Lemma draw_grid_eq d program model :
  draw_grid d program model =
  geometry_bind hexagon_ ::
  for_emit GridRows (fun i => for_emit GridColumns (hexagon_block d model i)) ++
  geometry_bind diamond_ ::
  for_emit (GridRows - 1)
    (fun i => for_emit (GridColumns - 1) (diamond_block d model i)).
Proof. reflexivity. Qed.

Lemma render_eq d :
  render d =
  shadow_setup ++ draw_grid d program_ render_model ++
  glDisable GL_POLYGON_OFFSET_FILL :: shadow_buffer_unbind ::
  color_setup d ++ draw_grid d program_ render_model.
Proof. reflexivity. Qed.

Lemma for_emit_flat_map {A B} (g : A -> list B) rows cols (blk : Z -> Z -> list A) :
  flat_map g (for_emit rows (fun i => for_emit cols (blk i))) =
  for_emit rows (fun i => for_emit cols (fun j => flat_map g (blk i j))).
Proof.
  unfold for_emit. rewrite flat_map_flat_map.
  apply flat_map_ext. intros i. apply flat_map_flat_map.
Qed.

Lemma for_emit_Forall {A} (P : A -> Prop) rows cols (blk : Z -> Z -> list A) :
  (forall i j, Forall P (blk i j)) ->
  Forall P (for_emit rows (fun i => for_emit cols (blk i))).
Proof.
  intros H. unfold for_emit.
  apply Forall_flat_map, Forall_forall. intros i _.
  apply Forall_flat_map, Forall_forall. intros j _. apply H.
Qed.

Lemma draw_grid_calls d program model :
  Forall (fun c => grid_call c = true) (draw_grid d program model).
Proof.
  rewrite draw_grid_eq.
  constructor; [reflexivity|]. apply Forall_app. split.
  - apply for_emit_Forall. intros i j. repeat constructor.
  - constructor; [reflexivity|].
    apply for_emit_Forall. intros i j. repeat constructor.
Qed.

(** ** Readers without state *)

Lemma model_matrices_draw_grid d program model :
  model_matrices (draw_grid d program model) =
  grid GridRows GridColumns (hexagon_model model) ++
  grid (GridRows - 1) (GridColumns - 1) (diamond_model model).
Proof.
  rewrite draw_grid_eq. unfold model_matrices.
  change (geometry_bind hexagon_ :: ?l) with ([geometry_bind hexagon_] ++ l).
  rewrite flat_map_app.
  change (geometry_bind diamond_ :: ?l) with ([geometry_bind diamond_] ++ l).
  rewrite !flat_map_app, !for_emit_flat_map. reflexivity.
Qed.

Lemma heights_draw_grid d program model :
  heights (draw_grid d program model) =
  grid GridRows GridColumns
    (fun i j => height (cur_time_ d) (hexagon_heights_ d i j)) ++
  grid (GridRows - 1) (GridColumns - 1)
    (fun i j => height (cur_time_ d) (diamond_heights_ d i j)).
Proof.
  rewrite draw_grid_eq. unfold heights.
  change (geometry_bind hexagon_ :: ?l) with ([geometry_bind hexagon_] ++ l).
  rewrite flat_map_app.
  change (geometry_bind diamond_ :: ?l) with ([geometry_bind diamond_] ++ l).
  rewrite !flat_map_app, !for_emit_flat_map. reflexivity.
Qed.

Lemma heights_render d :
  heights (render d) =
  heights (draw_grid d program_ render_model) ++
  heights (draw_grid d program_ render_model).
Proof.
  rewrite render_eq. unfold heights.
  change (glDisable GL_POLYGON_OFFSET_FILL :: shadow_buffer_unbind :: ?l)
    with ([glDisable GL_POLYGON_OFFSET_FILL; shadow_buffer_unbind] ++ l).
  rewrite !flat_map_app. reflexivity.
Qed.

(** ** Readers with state *)

Section ReadFrom.

Context {B K : Type}.
Variable read : draw_state -> gl_call -> list B.
Variable key : draw_state -> K.

Lemma read_from_app st l1 l2 :
  read_from read st (l1 ++ l2) =
  read_from read st l1 ++ read_from read (fold_left observe l1 st) l2.
Proof.
  revert st. induction l1 as [|c l1 IH]; intros st; simpl; [reflexivity|].
  now rewrite IH, app_assoc.
Qed.

(** A loop whose body reads the same under every state with the same
    [key], and keeps the [key]. *)
Lemma read_from_loop (blk : Z -> list gl_call) (out : K -> Z -> list B) l :
  (forall i st, read_from read st (blk i) = out (key st) i) ->
  (forall i st, key (fold_left observe (blk i) st) = key st) ->
  forall st,
    read_from read st (flat_map blk l) = flat_map (out (key st)) l /\
    key (fold_left observe (flat_map blk l) st) = key st.
Proof.
  intros Hread Hkey.
  induction l as [|i l IH]; intros st; simpl; [split; reflexivity|].
  rewrite read_from_app, fold_left_app.
  destruct (IH (fold_left observe (blk i) st)) as [-> ->].
  now rewrite Hread, Hkey.
Qed.

Lemma read_from_grid rows cols (blk : Z -> Z -> list gl_call)
    (out : K -> Z -> Z -> list B) :
  (forall i j st, read_from read st (blk i j) = out (key st) i j) ->
  (forall i j st, key (fold_left observe (blk i j) st) = key st) ->
  forall st,
    read_from read st (for_emit rows (fun i => for_emit cols (blk i))) =
      for_emit rows (fun i => for_emit cols (out (key st) i)) /\
    key (fold_left observe
           (for_emit rows (fun i => for_emit cols (blk i))) st) = key st.
Proof.
  intros Hread Hkey. unfold for_emit.
  apply (read_from_loop (fun i => flat_map (blk i) (range cols))
                        (fun k i => flat_map (out k i) (range cols))).
  - intros i st.
    now apply (read_from_loop (blk i) (fun k => out k i)).
  - intros i st.
    now apply (read_from_loop (blk i) (fun k => out k i)).
Qed.

End ReadFrom.

Lemma tile_draws_draw_grid d program model st :
  read_from draw_of st (draw_grid d program model) = all_tiles d model.
Proof.
  rewrite draw_grid_eq.
  change (geometry_bind hexagon_ :: ?l) with ([geometry_bind hexagon_] ++ l).
  change (geometry_bind diamond_ :: ?l) with ([geometry_bind diamond_] ++ l).
  rewrite !read_from_app.
  set (hex := for_emit GridRows _).
  set (dia := for_emit (GridRows - 1) _).
  simpl (fold_left observe [geometry_bind hexagon_] st).
  set (st1 := mkState (Some hexagon_) _ _ _).
  destruct (read_from_grid draw_of bound_geometry GridRows GridColumns
              (hexagon_block d model)
              (fun g i j => [mkTile g (Some (hexagon_model model i j))
                               (Some (height (cur_time_ d)
                                        (hexagon_heights_ d i j)))
                               GL_LINE_LOOP 0 6])
              ltac:(reflexivity) ltac:(reflexivity) st1) as [Hh _].
  fold hex in Hh. rewrite Hh.
  simpl (fold_left observe [geometry_bind diamond_] _).
  set (st2 := mkState (Some diamond_) _ _ _).
  destruct (read_from_grid draw_of bound_geometry (GridRows - 1)
              (GridColumns - 1) (diamond_block d model)
              (fun g i j => [mkTile g (Some (diamond_model model i j))
                               (Some (height (cur_time_ d)
                                        (diamond_heights_ d i j)))
                               GL_LINE_LOOP 0 4])
              ltac:(reflexivity) ltac:(reflexivity) st2) as [Hd _].
  fold dia in Hd. rewrite Hd.
  reflexivity.
Qed.

(** The per-tile uniforms of [draw_grid]: two for every tile, all set on
    [program_], whatever program is bound when [draw_grid] is called. *)
Lemma targets_draw_grid d program model st :
  read_from target_of st (draw_grid d program model) =
  repeat (bound_program st, program_)
         (2 * (hexagon_count + diamond_count)) /\
  bound_program (fold_left observe (draw_grid d program model) st) =
  bound_program st.
Proof.
  assert (Hrep : forall rows cols (x : option shader_program * shader_program),
             for_emit rows (fun _ => for_emit cols (fun _ => [x; x])) =
             repeat x (2 * (Z.to_nat rows * Z.to_nat cols))).
  { intros rows cols x. unfold for_emit.
    change [x; x] with (repeat x 2).
    rewrite (flat_map_repeat x 2 (range cols)).
    rewrite (flat_map_repeat x _ (range rows)), !range_length.
    f_equal. lia. }
  rewrite draw_grid_eq.
  change (geometry_bind hexagon_ :: ?l) with ([geometry_bind hexagon_] ++ l).
  change (geometry_bind diamond_ :: ?l) with ([geometry_bind diamond_] ++ l).
  rewrite !read_from_app, !fold_left_app.
  set (hex := for_emit GridRows _).
  set (dia := for_emit (GridRows - 1) _).
  set (st1 := fold_left observe [geometry_bind hexagon_] st).
  destruct (read_from_grid target_of bound_program GridRows GridColumns
              (hexagon_block d model)
              (fun p _ _ => [(p, program_); (p, program_)])
              ltac:(reflexivity) ltac:(reflexivity) st1) as [Hh Hk].
  fold hex in Hh, Hk. rewrite Hh.
  set (st2 := fold_left observe [geometry_bind diamond_] _).
  destruct (read_from_grid target_of bound_program (GridRows - 1)
              (GridColumns - 1) (diamond_block d model)
              (fun p _ _ => [(p, program_); (p, program_)])
              ltac:(reflexivity) ltac:(reflexivity) st2) as [Hd Hk2].
  fold dia in Hd, Hk2. rewrite Hd, Hk2.
  assert (H2 : bound_program st2 = bound_program st).
  { subst st2. cbn [fold_left observe bound_program]. rewrite Hk.
    reflexivity. }
  rewrite H2. split; [|reflexivity].
  change (bound_program st1) with (bound_program st).
  cbn [read_from target_of app].
  rewrite !Hrep, <- repeat_app. f_equal.
Qed.

(** ** The two passes of a frame *)

Lemma passes_split pre post :
  Forall (fun c => c <> shadow_buffer_unbind) pre ->
  shadow_pass (pre ++ shadow_buffer_unbind :: post) = pre /\
  color_pass (pre ++ shadow_buffer_unbind :: post) = post.
Proof.
  induction 1 as [|c pre Hc _ [IH1 IH2]]; simpl; [split; reflexivity|].
  destruct c; try (rewrite IH1, IH2; split; reflexivity).
  contradiction.
Qed.

Lemma grid_call_not_unbind l :
  Forall (fun c => grid_call c = true) l ->
  Forall (fun c => c <> shadow_buffer_unbind) l.
Proof.
  apply Forall_impl. intros c H ->. discriminate.
Qed.

Lemma render_passes d :
  render d =
  (shadow_setup ++ draw_grid d program_ render_model ++
   [glDisable GL_POLYGON_OFFSET_FILL]) ++
  shadow_buffer_unbind ::
  (color_setup d ++ draw_grid d program_ render_model).
Proof. rewrite render_eq, <- !app_assoc. reflexivity. Qed.

Lemma shadow_pass_no_unbind d :
  Forall (fun c => c <> shadow_buffer_unbind)
         (shadow_setup ++ draw_grid d program_ render_model ++
          [glDisable GL_POLYGON_OFFSET_FILL]).
Proof.
  apply Forall_app. split.
  - repeat constructor; discriminate.
  - apply Forall_app. split.
    + apply grid_call_not_unbind, draw_grid_calls.
    + repeat constructor; discriminate.
Qed.

Lemma shadow_pass_render d :
  shadow_pass (render d) =
  shadow_setup ++ draw_grid d program_ render_model ++
  [glDisable GL_POLYGON_OFFSET_FILL].
Proof.
  rewrite render_passes. apply passes_split, shadow_pass_no_unbind.
Qed.


(** ** The loops of [initialize_heights] *)

Section Fill.

Variable v : nat -> R.

Lemma fill_row i k : forall a0 n0,
  exists a1,
    fold_left (fun acc j => fill_body v i j acc)
              (map Z.of_nat (seq 0 k)) (a0, n0) = (a1, (n0 + k)%nat) /\
    forall i' j',
      a1 i' j' =
      if ((i' =? i) && (0 <=? j') && (j' <? Z.of_nat k))%Z%bool
      then v (n0 + Z.to_nat j')%nat else a0 i' j'.
Proof.
  induction k as [|k IH]; intros a0 n0.
  - exists a0. split; [simpl; f_equal; lia|].
    intros i' j'.
    destruct (i' =? i)%Z, (Z.leb_spec 0 j'), (Z.ltb_spec j' (Z.of_nat 0));
      simpl; try reflexivity; lia.
  - destruct (IH a0 n0) as (a1 & Heq & Ha1).
    remember (Z.of_nat (S k)) as K eqn:HK.
    rewrite seq_S, map_app, fold_left_app, Heq. simpl.
    eexists. split; [f_equal; lia|].
    intros i' j'. unfold array_set. rewrite Ha1.
    destruct (Z.eqb_spec i' i), (Z.eqb_spec j' (Z.of_nat k)),
      (Z.leb_spec 0 j'), (Z.ltb_spec j' (Z.of_nat k)),
      (Z.ltb_spec j' K);
      simpl; try reflexivity; try lia.
    f_equal. lia.
Qed.

Lemma fill_rows cols r : forall a0 n0,
  exists a1,
    fold_left (fun acc i => for_state cols (fill_body v i) acc)
              (map Z.of_nat (seq 0 r)) (a0, n0)
      = (a1, (n0 + r * Z.to_nat cols)%nat) /\
    forall i' j',
      a1 i' j' =
      if ((0 <=? i') && (i' <? Z.of_nat r) && (0 <=? j') && (j' <? cols))%Z%bool
      then v (n0 + Z.to_nat i' * Z.to_nat cols + Z.to_nat j')%nat
      else a0 i' j'.
Proof.
  induction r as [|r IH]; intros a0 n0.
  - exists a0. split; [simpl; f_equal; lia|].
    intros i' j'.
    destruct (Z.leb_spec 0 i'), (Z.ltb_spec i' (Z.of_nat 0));
      simpl; try reflexivity; lia.
  - destruct (IH a0 n0) as (a1 & Heq & Ha1).
    remember (Z.of_nat (S r)) as K eqn:HK.
    rewrite seq_S, map_app, fold_left_app, Heq. simpl.
    destruct (fill_row (Z.of_nat r) (Z.to_nat cols) a1
                       (n0 + r * Z.to_nat cols)%nat) as (a2 & Heq2 & Ha2).
    unfold for_state, range. rewrite Heq2.
    exists a2. split; [f_equal; lia|].
    intros i' j'. rewrite Ha2, Ha1.
    destruct (Z.eqb_spec i' (Z.of_nat r)), (Z.leb_spec 0 i'),
      (Z.ltb_spec i' (Z.of_nat r)), (Z.ltb_spec i' K),
      (Z.leb_spec 0 j'), (Z.ltb_spec j' cols),
      (Z.ltb_spec j' (Z.of_nat (Z.to_nat cols)));
      simpl; try reflexivity; try lia.
    subst i'. now rewrite Nat2Z.id.
Qed.

Lemma fill_grid rows cols a0 n0 :
  exists a1,
    for_state rows (fun i => for_state cols (fill_body v i)) (a0, n0)
      = (a1, (n0 + Z.to_nat rows * Z.to_nat cols)%nat) /\
    (forall i j,
       (0 <= i < rows)%Z -> (0 <= j < cols)%Z ->
       a1 i j = v (n0 + slot_index cols i j)%nat).
Proof.
  destruct (fill_rows cols (Z.to_nat rows) a0 n0) as (a1 & Heq & Ha1).
  exists a1. split; [exact Heq|].
  intros i j Hi Hj. rewrite Ha1.
  destruct (Z.leb_spec 0 i), (Z.ltb_spec i (Z.of_nat (Z.to_nat rows))),
    (Z.leb_spec 0 j), (Z.ltb_spec j cols); simpl; try lia.
  f_equal. unfold slot_index. nia.
Qed.

End Fill.

Section HeightsLemmas.

Variable RAND_MAX : Z.
Variable rand_seq : nat -> Z.


Lemma initialize_heights_spec d calls :
  let r := initialize_heights RAND_MAX rand_seq d calls in
  snd r = (calls + hexagon_count + diamond_count)%nat /\
  (forall i j, (0 <= i < GridRows)%Z -> (0 <= j < GridColumns)%Z ->
     hexagon_heights_ (fst r) i j =
     2.5 * IZR (rand_seq (calls + slot_index GridColumns i j)) /
     IZR RAND_MAX) /\
  (forall i j, (0 <= i < GridRows - 1)%Z -> (0 <= j < GridColumns - 1)%Z ->
     diamond_heights_ (fst r) i j =
     2.5 * IZR (rand_seq (calls + hexagon_count
                          + slot_index (GridColumns - 1) i j)) /
     IZR RAND_MAX) /\
  window_width_ (fst r) = window_width_ d /\
  window_height_ (fst r) = window_height_ d /\
  cur_time_ (fst r) = cur_time_ d.
Proof.
  unfold initialize_heights, std_rand.
  set (phase := fun n : nat => 2.5 * IZR (rand_seq n) / IZR RAND_MAX).
  destruct (fill_grid phase GridRows GridColumns (hexagon_heights_ d) calls)
    as (hex & Hh & Hhex).
  destruct (fill_grid phase (GridRows - 1) (GridColumns - 1)
              (diamond_heights_ d)
              (calls + Z.to_nat GridRows * Z.to_nat GridColumns)%nat)
    as (dia & Hd & Hdia).
  unfold fill_body, phase in Hh, Hd.
  cbv zeta. rewrite Hh, Hd. cbn [fst snd].
  repeat split.
  - intros i j Hi Hj. cbn [hexagon_heights_]. now rewrite Hhex.
  - intros i j Hi Hj. cbn [diamond_heights_]. now rewrite Hdia.
Qed.

End HeightsLemmas.

(** ** The height of a tile *)

Lemma height_bounds t p : 0 <= height t p <= 5.
Proof.
  unfold height. pose proof (SIN_bound (t + p)) as [Hlo Hhi]. lra.
Qed.

Lemma height_period t p : height (t + 2 * PI) p = height t p.
Proof.
  unfold height.
  replace (t + 2 * PI + p) with (t + p + 2 * INR 1 * PI) by (simpl; ring).
  now rewrite sin_period.
Qed.

Lemma radians_30 : glm.radians 30 = PI / 6.
Proof. unfold glm.radians. field. Qed.

Lemma hexagon_model_spec model i j :
  hexagon_model model i j =
  placed model (spec_hexagon_offset GridRows GridColumns i j).
Proof.
  unfold hexagon_model, placed, spec_hexagon_offset.
  rewrite radians_30, !minus_IZR.
  replace (0.5 * (IZR GridColumns - 1)) with ((IZR GridColumns - 1) / 2) by lra.
  replace (0.5 * (IZR GridRows - 1)) with ((IZR GridRows - 1) / 2) by lra.
  reflexivity.
Qed.

Lemma diamond_model_spec model i j :
  diamond_model model i j =
  placed model (spec_diamond_offset GridRows GridColumns i j).
Proof.
  unfold diamond_model, placed, spec_diamond_offset.
  rewrite radians_30, !minus_IZR.
  replace (0.5 * (IZR GridColumns - 2)) with ((IZR GridColumns - 2) / 2) by lra.
  replace (0.5 * (IZR GridRows - 2)) with ((IZR GridRows - 2) / 2) by lra.
  reflexivity.
Qed.

Lemma hexagon_count_eq :
  hexagon_count = (Z.to_nat GridRows * Z.to_nat GridColumns)%nat.
Proof. reflexivity. Qed.

Lemma diamond_count_eq :
  diamond_count =
  (Z.to_nat (GridRows - 1) * Z.to_nat (GridColumns - 1))%nat.
Proof. reflexivity. Qed.

(** * The claims *)

(** C1. Grid layout. In the calls of [draw_grid], the model matrix of the
    hexagon at slot [(i, j)], [0 <= i < GridRows] and [0 <= j < GridColumns],
    places the tile at [x = 2 cos(30 deg) (j - (Columns - 1) / 2)],
    [y = 2 (i - (Rows - 1) / 2)]; the model matrix of the diamond at slot
    [(i, j)], [0 <= i < GridRows - 1] and [0 <= j < GridColumns - 1], places
    it at [x = 2 cos(30 deg) (j - (Columns - 2) / 2)],
    [y = 2 (i - (Rows - 2) / 2)]. The hexagons come first, row by row, then
    the diamonds, row by row. The placement depends on nothing but the
    indices, the grid size and the [model] argument: another object (another
    clock, other phases) and another [program] argument give the same model
    matrices. *)
Theorem C1_grid_layout (d : Demo) (program : shader_program)
    (model : glm.mat4) :
  (forall i j, (0 <= i < GridRows)%Z -> (0 <= j < GridColumns)%Z ->
     nth_error (model_matrices (draw_grid d program model))
               (slot_index GridColumns i j)
     = Some (placed model (spec_hexagon_offset GridRows GridColumns i j))) /\
  (forall i j, (0 <= i < GridRows - 1)%Z -> (0 <= j < GridColumns - 1)%Z ->
     nth_error (model_matrices (draw_grid d program model))
               (hexagon_count + slot_index (GridColumns - 1) i j)
     = Some (placed model (spec_diamond_offset GridRows GridColumns i j))) /\
  (forall d' program',
     model_matrices (draw_grid d' program' model)
     = model_matrices (draw_grid d program model)).
Proof.
  split; [|split].
  - intros i j Hi Hj. rewrite model_matrices_draw_grid.
    rewrite nth_error_app1.
    + rewrite grid_nth by assumption. f_equal. apply hexagon_model_spec.
    + rewrite grid_length. unfold slot_index. nia.
  - intros i j Hi Hj. rewrite model_matrices_draw_grid.
    rewrite nth_error_app2
      by (rewrite grid_length, hexagon_count_eq; lia).
    rewrite grid_length, hexagon_count_eq.
    replace (Z.to_nat GridRows * Z.to_nat GridColumns
             + slot_index (GridColumns - 1) i j
             - Z.to_nat GridRows * Z.to_nat GridColumns)%nat
      with (slot_index (GridColumns - 1) i j) by lia.
    rewrite grid_nth by assumption. f_equal. apply diamond_model_spec.
  - intros d' program'. now rewrite !model_matrices_draw_grid.
Qed.

(** The diamond at the centre slot [(5, 5)] of the 11 by 11 diamond grid, and
    the hexagon at slot [(2, 3)]. *)
Lemma C1_grid_layout_witness :
  nth_error (model_matrices (draw_grid demo_zero program_ render_model))
            (slot_index GridColumns 2 3)
  = Some (placed render_model
            (spec_hexagon_offset GridRows GridColumns 2 3)) /\
  nth_error (model_matrices (draw_grid demo_zero program_ render_model))
            (hexagon_count + slot_index (GridColumns - 1) 5 5)
  = Some (placed render_model
            (spec_diamond_offset GridRows GridColumns 5 5)).
Proof.
  split.
  - apply (proj1 (C1_grid_layout demo_zero program_ render_model));
      unfold GridRows, GridColumns; lia.
  - apply (proj1 (proj2 (C1_grid_layout demo_zero program_ render_model)));
      unfold GridRows, GridColumns; lia.
Defined.

(** C2. The height of a tile. The value [draw_grid] computes for a clock
    value [t] and a phase [p] is [2.5 (1 + sin (t + p))], and it lies in
    [[0, 5]]. The values given to the uniform [height] in a frame are these
    values at the clock of the object and the phase of each slot, hexagons
    then diamonds, once for each of the two passes; all of them lie in
    [[0, 5]]. *)
Theorem C2_height_formula_and_bounds (d : Demo) (t p : R) :
  height t p = 2.5 * (1 + sin (t + p)) /\
  0 <= height t p <= 5 /\
  (let per_pass :=
     grid GridRows GridColumns
       (fun i j => 2.5 * (1 + sin (cur_time_ d + hexagon_heights_ d i j))) ++
     grid (GridRows - 1) (GridColumns - 1)
       (fun i j => 2.5 * (1 + sin (cur_time_ d + diamond_heights_ d i j))) in
   heights (render d) = per_pass ++ per_pass) /\
  Forall (fun h => 0 <= h <= 5) (heights (render d)).
Proof.
  split; [reflexivity|]. split; [apply height_bounds|]. split.
  - cbv zeta. rewrite heights_render, heights_draw_grid. reflexivity.
  - rewrite heights_render, heights_draw_grid.
    rewrite !Forall_app. repeat split;
      apply Forall_forall; intros h Hh; apply grid_In in Hh;
      destruct Hh as (i & j & _ & _ & ->); apply height_bounds.
Qed.

(** ** The clock *)

Lemma draw_grid_at_time d t program model :
  (forall p, height t p = height (cur_time_ d) p) ->
  draw_grid (at_time d t) program model = draw_grid d program model.
Proof.
  intros H. rewrite !draw_grid_eq. unfold for_emit.
  f_equal. f_equal; [|f_equal];
    apply flat_map_ext; intros i; apply flat_map_ext; intros j;
    unfold hexagon_block, diamond_block, at_time; cbn [cur_time_
      hexagon_heights_ diamond_heights_]; now rewrite H.
Qed.

Lemma render_at_time d t :
  (forall p, height t p = height (cur_time_ d) p) ->
  render (at_time d t) = render d.
Proof.
  intros H. rewrite !render_eq. now rewrite (draw_grid_at_time d t).
Qed.

Lemma at_time_same d : at_time d (cur_time_ d) = d.
Proof. now destruct d. Qed.

Lemma render_and_step_eq d dt :
  render_and_step d dt = (render d, at_time d (cur_time_ d + dt)).
Proof. reflexivity. Qed.

Lemma run_clock dts : forall d,
  cur_time_ (snd (run d dts)) = cur_time_ d + sum dts.
Proof.
  induction dts as [|dt dts IH]; intros d; simpl.
  - ring.
  - specialize (IH (at_time d (cur_time_ d + dt))).
    destruct (run _ dts) as [frames d2]. simpl in *. rewrite IH. ring.
Qed.

Lemma run_app dts1 : forall d dts2,
  snd (run d (dts1 ++ dts2)) = snd (run (snd (run d dts1)) dts2).
Proof.
  induction dts1 as [|dt dts1 IH]; intros d dts2; simpl; [reflexivity|].
  specialize (IH (at_time d (cur_time_ d + dt)) dts2).
  destruct (run _ (dts1 ++ dts2)) as [f12 d12].
  destruct (run _ dts1) as [f1 d1]. exact IH.
Qed.

Lemma sum_nonneg dts : Forall (fun dt => 0 <= dt) dts -> 0 <= sum dts.
Proof.
  induction 1 as [|dt dts Hdt _ IH]; simpl; lra.
Qed.

(** C9. The height is periodic in the clock with period [2 PI]: for every
    clock value [t] and phase [p], [height (t + 2 PI) p = height t p]; hence
    the frame drawn by an object whose clock is [2 PI] later is the same
    frame. (Over the real numbers.) *)
Theorem C9_height_periodic (d : Demo) (t p : R) :
  height (t + 2 * PI) p = height t p /\
  render (at_time d (cur_time_ d + 2 * PI)) = render d.
Proof.
  split; [apply height_period|].
  apply render_at_time. intros q. apply height_period.
Qed.


(** ** The order of the calls of a frame *)

Lemma draw_grid_not_In d program model c :
  grid_call c = false -> ~ In c (draw_grid d program model).
Proof.
  intros Hc Hin.
  pose proof (draw_grid_calls d program model) as H.
  rewrite Forall_forall in H. apply H in Hin. congruence.
Qed.

Lemma all_tiles_length d model :
  length (all_tiles d model) = (hexagon_count + diamond_count)%nat.
Proof.
  unfold all_tiles. now rewrite length_app, !grid_length.
Qed.

Lemma tile_draws_around d pre post :
  read_from draw_of no_state pre = [] ->
  (forall st, read_from draw_of st post = []) ->
  tile_draws (pre ++ draw_grid d program_ render_model ++ post) =
  all_tiles d render_model.
Proof.
  intros Hpre Hpost. unfold tile_draws.
  rewrite !read_from_app, tile_draws_draw_grid, Hpre, Hpost.
  apply app_nil_r.
Qed.

(** C6. The shadow pass completes before the color pass begins, in every
    frame. The calls of a frame are, in this order: the shadow buffer is
    bound and the depth buffer (and no color buffer) is cleared; calls that
    draw every tile and neither bind nor unbind the shadow buffer; the shadow
    buffer is unbound; the viewport is set to the window and color and depth
    are cleared; calls that draw every tile again and neither bind nor unbind
    the shadow buffer. This holds for every object: [render] has no branch. *)
Theorem C6_shadow_pass_completes_before_color_pass (d : Demo) :
  exists shadow_calls color_calls,
    render d =
      [glDisable GL_BLEND; glDisable GL_CULL_FACE; glEnable GL_MULTISAMPLE;
       glViewport 0 0 ShadowWidth ShadowHeight;
       shadow_buffer_bind;
       glClear GL_DEPTH_BUFFER_BIT] ++
      shadow_calls ++
      [shadow_buffer_unbind;
       glViewport 0 0 (window_width_ d) (window_height_ d);
       glClearColor 0 0 0 0;
       glClear (Z.lor GL_COLOR_BUFFER_BIT GL_DEPTH_BUFFER_BIT)] ++
      color_calls /\
    Z.land GL_DEPTH_BUFFER_BIT GL_COLOR_BUFFER_BIT = 0%Z /\
    tile_draws shadow_calls = all_tiles d render_model /\
    tile_draws color_calls = all_tiles d render_model /\
    length (all_tiles d render_model) = (hexagon_count + diamond_count)%nat /\
    ~ In shadow_buffer_bind (shadow_calls ++ color_calls) /\
    ~ In shadow_buffer_unbind (shadow_calls ++ color_calls).
Proof.
  exists (skipn 6 shadow_setup ++ draw_grid d program_ render_model ++
          [glDisable GL_POLYGON_OFFSET_FILL]),
         (skipn 3 (color_setup d) ++ draw_grid d program_ render_model ++ []).
  split; [|split; [reflexivity|split; [|split; [|split]]]].
  - rewrite render_eq, app_nil_r, <- !app_assoc. reflexivity.
  - apply tile_draws_around; reflexivity.
  - apply tile_draws_around; reflexivity.
  - apply all_tiles_length.
  - split; intros Hin;
      repeat (apply in_app_or in Hin; destruct Hin as [Hin|Hin]);
      try (apply draw_grid_not_In in Hin; [assumption|reflexivity]);
      simpl in Hin; intuition discriminate.
Qed.

(** C3. What the code does in the shadow pass. Every call that sets
    [modelMatrix] or [height] before the shadow buffer is unbound is made
    while [shadow_program_] is the program bound, and is made on [program_]:
    [draw_grid] does not use its [program] argument, and [render] passes
    [program_] in both passes. There are two such calls for every tile. *)
Theorem C3_shadow_pass_tile_uniforms_go_to_program_ (d : Demo) :
  tile_uniform_targets (shadow_pass (render d)) =
  repeat (Some shadow_program_, program_)
         (2 * (hexagon_count + diamond_count)).
Proof.
  rewrite shadow_pass_render. unfold tile_uniform_targets.
  rewrite !read_from_app.
  destruct (targets_draw_grid d program_ render_model
              (fold_left observe shadow_setup no_state)) as [-> _].
  change (read_from target_of no_state shadow_setup)
    with (@nil (option shader_program * shader_program)).
  cbn [read_from target_of app]. rewrite app_nil_r. reflexivity.
Qed.

(** ** The frame and the clock *)




Lemma render_and_step_float_eq rnd d dt :
  render_and_step_float rnd d dt =
  (render d, at_time d (rnd (cur_time_ d + rnd dt))).
Proof. reflexivity. Qed.

(** With exact arithmetic for [rnd], the float definitions are the ones
    above. *)
Lemma run_float_exact dts : forall d, run_float (fun x => x) d dts = run d dts.
Proof.
  induction dts as [|dt dts IH]; intros d; [reflexivity|].
  cbn [run_float run]. rewrite render_and_step_float_eq, render_and_step_eq.
  now rewrite IH.
Qed.

Section FloatClock.

(** A rounding: monotone, leaving a [float] as it is, and 0 is a [float]. *)
Variable rnd : R -> R.
Hypothesis rnd_monotone : forall x y, x <= y -> rnd x <= rnd y.
Hypothesis rnd_idempotent : forall x, rnd (rnd x) = rnd x.
Hypothesis rnd_zero : rnd 0 = 0.

Lemma step_float_holds_float d dt :
  rnd (cur_time_ (snd (render_and_step_float rnd d dt)))
  = cur_time_ (snd (render_and_step_float rnd d dt)).
Proof.
  rewrite render_and_step_float_eq. cbn [snd at_time cur_time_].
  apply rnd_idempotent.
Qed.

Lemma step_float_monotone d dt :
  rnd (cur_time_ d) = cur_time_ d -> 0 <= dt ->
  cur_time_ d <= cur_time_ (snd (render_and_step_float rnd d dt)).
Proof.
  intros Hd Hdt. rewrite render_and_step_float_eq.
  cbn [snd at_time cur_time_]. rewrite <- Hd at 1.
  apply rnd_monotone.
  pose proof (rnd_monotone 0 dt Hdt) as H. rewrite rnd_zero in H. lra.
Qed.

Lemma run_float_holds_float dts : forall d,
  rnd (cur_time_ d) = cur_time_ d ->
  rnd (cur_time_ (snd (run_float rnd d dts)))
  = cur_time_ (snd (run_float rnd d dts)).
Proof.
  induction dts as [|dt dts IH]; intros d Hd; [exact Hd|].
  cbn [run_float]. rewrite render_and_step_float_eq.
  specialize (IH (at_time d (rnd (cur_time_ d + rnd dt)))
                 (rnd_idempotent _)).
  destruct (run_float rnd _ dts) as [frames d2]. exact IH.
Qed.

Lemma run_float_monotone dts : forall d,
  rnd (cur_time_ d) = cur_time_ d ->
  Forall (fun x => 0 <= x) dts ->
  cur_time_ d <= cur_time_ (snd (run_float rnd d dts)).
Proof.
  induction dts as [|dt dts IH]; intros d Hd Hdts; [cbn; lra|].
  inversion Hdts as [|? ? Hdt Hrest]; subst.
  cbn [run_float]. rewrite render_and_step_float_eq.
  pose proof (step_float_monotone d dt Hd Hdt) as Hstep.
  rewrite render_and_step_float_eq in Hstep. cbn [snd] in Hstep.
  specialize (IH (at_time d (rnd (cur_time_ d + rnd dt)))
                 (rnd_idempotent _) Hrest).
  destruct (run_float rnd _ dts) as [frames d2].
  cbn [snd at_time cur_time_] in *. lra.
Qed.

End FloatClock.

Lemma round_down_monotone x y : x <= y -> round_down x <= round_down y.
Proof.
  intros H. unfold round_down.
  destruct (base_Int_part x) as [Hx _]. destruct (base_Int_part y) as [_ Hy].
  apply IZR_le. apply Z.lt_succ_r. apply lt_IZR. rewrite succ_IZR. lra.
Qed.

Lemma round_down_IZR z : round_down (IZR z) = IZR z.
Proof.
  unfold round_down. f_equal. symmetry. apply Int_part_spec. lra.
Qed.

Lemma binary32_not_16777217 : ~ binary32 16777217.
Proof.
  intros (m & n & Hm & [H|H]).
  - rewrite pow_IZR, <- mult_IZR in H. apply eq_IZR in H.
    destruct n as [|n].
    + change (2 ^ Z.of_nat 0)%Z with 1%Z in H.
      change (2 ^ 24)%Z with 16777216%Z in Hm. lia.
    + rewrite Nat2Z.inj_succ, Z.pow_succ_r in H by lia. lia.
  - assert (Hp : 0 < 2 ^ n) by (apply pow_lt; lra).
    assert (H' : IZR m = 16777217 * 2 ^ n).
    { rewrite H. field. lra. }
    rewrite pow_IZR, <- mult_IZR in H'. apply eq_IZR in H'.
    assert (0 < 2 ^ Z.of_nat n)%Z by (apply Z.pow_pos_nonneg; lia).
    change (2 ^ 24)%Z with 16777216%Z in Hm. nia.
Qed.

(** C8, as the code has it. The clock is 0 after construction and holds a
    [float] at all times. [render_and_step(dt)] replaces it by the sum of the
    clock and [dt] rounded to [float], with [dt] rounded to [float] first,
    and nothing else changes it. For every rounding that is monotone and
    leaves the floats, 0 among them, as they are: when the elapsed times
    [dts2] of later frames are non-negative, the clock after them is no less
    than before them; and a call with [dt = 0] leaves the clock as it was,
    so that the frame drawn next is, call for call, the frame this call
    drew: no rendered height changes. *)
Theorem C8_clock_in_float_arithmetic (rnd : R -> R)
    (RAND_MAX : Z) (rand_seq : nat -> Z)
    (window_width window_height : Z) (hexagon0 diamond0 : Z -> Z -> R)
    (calls : nat) (dt : R) (dts1 dts2 : list R) :
  (forall x y, x <= y -> rnd x <= rnd y) ->
  (forall x, rnd (rnd x) = rnd x) ->
  rnd 0 = 0 ->
  Forall (fun x => 0 <= x) dts2 ->
  let d0 :=
    snd (fst (Demo_new RAND_MAX rand_seq window_width window_height
                       hexagon0 diamond0 calls)) in
  let d := snd (run_float rnd d0 dts1) in
  cur_time_ d0 = 0 /\
  rnd (cur_time_ d) = cur_time_ d /\
  cur_time_ (snd (render_and_step_float rnd d dt))
    = rnd (cur_time_ d + rnd dt) /\
  cur_time_ d <= cur_time_ (snd (run_float rnd d dts2)) /\
  cur_time_ (snd (render_and_step_float rnd d 0)) = cur_time_ d /\
  fst (render_and_step_float rnd (snd (render_and_step_float rnd d 0)) dt)
    = fst (render_and_step_float rnd d 0).
Proof.
  intros Hmono Hidem Hzero Hnonneg d0 d.
  assert (H0 : cur_time_ d0 = 0).
  { subst d0. unfold Demo_new.
    pose proof (initialize_heights_spec RAND_MAX rand_seq
                  (mkDemo hexagon0 diamond0 window_width window_height 0)
                  calls) as H.
    cbv zeta in H. destruct H as (_ & _ & _ & _ & _ & H).
    destruct (initialize_heights _ _ _ _) as [d1 calls1]. exact H. }
  assert (Hd : rnd (cur_time_ d) = cur_time_ d).
  { subst d. apply run_float_holds_float; [exact Hidem|].
    now rewrite H0. }
  assert (Hsame : at_time d (rnd (cur_time_ d + rnd 0)) = d).
  { rewrite Hzero, Rplus_0_r, Hd. apply at_time_same. }
  split; [exact H0|]. split; [exact Hd|]. split; [reflexivity|].
  split; [now apply run_float_monotone|].
  rewrite !render_and_step_float_eq. cbn [fst snd]. rewrite Hsame.
  split; reflexivity.
Qed.

Lemma C8_clock_in_float_arithmetic_witness :
  (forall x y, x <= y -> round_down x <= round_down y) /\
  (forall x, round_down (round_down x) = round_down x) /\
  round_down 0 = 0 /\
  Forall (fun x => 0 <= x) [0.5; 0; 1.75] /\
  cur_time_ (snd (run_float round_down demo_zero [2.5]))
    <= cur_time_
         (snd (run_float round_down
                 (snd (run_float round_down demo_zero [2.5]))
                 [0.5; 0; 1.75])).
Proof.
  assert (Hidem : forall x, round_down (round_down x) = round_down x)
    by (intros x; apply round_down_IZR).
  assert (Hzero : round_down 0 = 0) by apply (round_down_IZR 0).
  assert (Hdts : Forall (fun x => 0 <= x) [0.5; 0; 1.75])
    by (repeat constructor; lra).
  split; [exact round_down_monotone|]. split; [exact Hidem|].
  split; [exact Hzero|]. split; [exact Hdts|].
  pose proof (C8_clock_in_float_arithmetic round_down glibc_RAND_MAX
                (fun _ => 0%Z) 800 800 (fun _ _ => 0) (fun _ _ => 0) 0 1
                [2.5] [0.5; 0; 1.75]
                round_down_monotone Hidem Hzero Hdts) as H.
  cbv zeta in H. destruct H as (_ & _ & _ & Hmono & _).
  exact Hmono.
Defined.

(** C8, as the claim has it, fails: the clock is not always advanced by
    exactly [dt]. With the clock at 16777216 (2 to the 24) and [dt = 1], the
    exact sum 16777217 is not a [float], so whatever the rounding, the clock
    after the call is not the clock before it plus [dt]. *)
Lemma C8_counterexample :
  ~ exists rnd : R -> R,
      (forall x, binary32 (rnd x)) /\
      cur_time_ (snd (render_and_step_float rnd
                        (at_time demo_zero 16777216) 1))
      = cur_time_ (at_time demo_zero 16777216) + 1.
Proof.
  intros (rnd & Hfloat & H).
  rewrite render_and_step_float_eq in H. cbn [snd at_time cur_time_] in H.
  apply binary32_not_16777217.
  replace 16777217 with (16777216 + 1) by lra.
  rewrite <- H. apply Hfloat.
Qed.

(** ** The phases *)

Lemma phase_bounds (RAND_MAX r : Z) :
  (0 < RAND_MAX)%Z -> (0 <= r <= RAND_MAX)%Z ->
  0 <= 2.5 * IZR r / IZR RAND_MAX <= 2.5 /\
  (2.5 * IZR r / IZR RAND_MAX < 2.5 <-> (r < RAND_MAX)%Z).
Proof.
  intros HM [Hr0 HrM].
  assert (H0 : 0 < IZR RAND_MAX) by now apply IZR_lt.
  assert (H1 : 0 <= IZR r) by now apply IZR_le.
  assert (H2 : IZR r <= IZR RAND_MAX) by now apply IZR_le.
  assert (Hdiv : 2.5 * IZR r / IZR RAND_MAX = 2.5 * (IZR r / IZR RAND_MAX))
    by (unfold Rdiv; ring).
  assert (Hq0 : 0 <= IZR r / IZR RAND_MAX)
    by (apply Rmult_le_pos; [assumption|left; now apply Rinv_0_lt_compat]).
  assert (Hq1 : IZR r / IZR RAND_MAX <= 1)
    by (apply (Rmult_le_reg_r (IZR RAND_MAX)); [assumption|];
        unfold Rdiv; rewrite Rmult_assoc, Rinv_l by lra; lra).
  rewrite Hdiv. split; [lra|]. split.
  - intros Hlt. apply lt_IZR.
    destruct (Rlt_le_dec (IZR r) (IZR RAND_MAX)) as [|Hge]; [assumption|].
    assert (Heq : IZR r = IZR RAND_MAX) by lra.
    rewrite Heq in Hlt. unfold Rdiv in Hlt. rewrite Rinv_r in Hlt by lra. lra.
  - intros Hlt. apply IZR_lt in Hlt.
    assert (IZR r / IZR RAND_MAX < 1); [|lra].
    apply (Rmult_lt_reg_r (IZR RAND_MAX)); [assumption|].
    unfold Rdiv. rewrite Rmult_assoc, Rinv_l by lra. lra.
Qed.

Lemma slot_index_lt rows cols i j :
  (0 <= i < rows)%Z -> (0 <= j < cols)%Z ->
  (slot_index cols i j < Z.to_nat rows * Z.to_nat cols)%nat.
Proof. intros Hi Hj. unfold slot_index. nia. Qed.

Lemma slot_index_inj cols i j i' j' :
  (0 <= i)%Z -> (0 <= i')%Z -> (0 <= j < cols)%Z -> (0 <= j' < cols)%Z ->
  slot_index cols i j = slot_index cols i' j' -> i = i' /\ j = j'.
Proof.
  intros Hi Hi' Hj Hj' H. unfold slot_index in H.
  assert (Heq : (i * cols + j = i' * cols + j')%Z) by nia.
  assert (i = i') by nia. subst i'. split; [reflexivity|lia].
Qed.

Lemma lcg_seq_range k : (0 <= lcg_seq k <= glibc_RAND_MAX)%Z.
Proof.
  unfold lcg_seq, glibc_RAND_MAX.
  pose proof (Z.mod_pos_bound (Z.of_nat k * 1103515245 + 12345) 2147483648).
  lia.
Qed.

Lemma max_first_seq_range k : (0 <= max_first_seq k <= glibc_RAND_MAX)%Z.
Proof.
  destruct k; [unfold max_first_seq, glibc_RAND_MAX; lia|].
  apply lcg_seq_range.
Qed.

(** C4, as the code has it. [initialize_heights] makes exactly
    [GridRows * GridColumns + (GridRows - 1) * (GridColumns - 1)] calls of
    [std::rand], the first [GridRows * GridColumns] of them for the hexagon
    slots and the others for the diamond slots. When [std::rand] returns
    values from 0 to [RAND_MAX], every phase stored lies in the closed
    interval [[0, 2.5]], and the phase of a slot is 2.5 when the value
    [std::rand] returned for it is [RAND_MAX]. *)
Theorem C4_phase_count_and_range (RAND_MAX : Z) (rand_seq : nat -> Z)
    (d : Demo) (calls : nat) :
  (0 < RAND_MAX)%Z ->
  (forall k, (0 <= rand_seq k <= RAND_MAX)%Z) ->
  let r := initialize_heights RAND_MAX rand_seq d calls in
  snd r = (calls + Z.to_nat (GridRows * GridColumns)
           + Z.to_nat ((GridRows - 1) * (GridColumns - 1)))%nat /\
  (forall i j, (0 <= i < GridRows)%Z -> (0 <= j < GridColumns)%Z ->
     let k := slot_index GridColumns i j in
     (k < Z.to_nat (GridRows * GridColumns))%nat /\
     0 <= hexagon_heights_ (fst r) i j <= 2.5 /\
     (rand_seq (calls + k)%nat = RAND_MAX ->
      hexagon_heights_ (fst r) i j = 2.5)) /\
  (forall i j, (0 <= i < GridRows - 1)%Z -> (0 <= j < GridColumns - 1)%Z ->
     let k := slot_index (GridColumns - 1) i j in
     (k < Z.to_nat ((GridRows - 1) * (GridColumns - 1)))%nat /\
     0 <= diamond_heights_ (fst r) i j <= 2.5 /\
     (rand_seq (calls + Z.to_nat (GridRows * GridColumns) + k)%nat
        = RAND_MAX ->
      diamond_heights_ (fst r) i j = 2.5)).
Proof.
  intros HM Hrange r.
  destruct (initialize_heights_spec RAND_MAX rand_seq d calls)
    as (Hcalls & Hhex & Hdia & _).
  fold r in Hcalls, Hhex, Hdia.
  assert (Htop : 2.5 * IZR RAND_MAX / IZR RAND_MAX = 2.5).
  { assert (0 < IZR RAND_MAX) by now apply IZR_lt.
    unfold Rdiv. rewrite Rmult_assoc, Rinv_r by lra. lra. }
  split; [exact Hcalls|]. split.
  - intros i j Hi Hj k.
    split; [apply (slot_index_lt GridRows); assumption|].
    rewrite (Hhex i j Hi Hj). fold k.
    split; [now apply phase_bounds|].
    intros ->. exact Htop.
  - intros i j Hi Hj k.
    split; [apply (slot_index_lt (GridRows - 1)); assumption|].
    rewrite (Hdia i j Hi Hj). fold k.
    split; [now apply phase_bounds|].
    intros Hk.
    change (Z.to_nat (GridRows * GridColumns)) with hexagon_count in Hk.
    rewrite Hk. exact Htop.
Qed.

Lemma C4_phase_count_and_range_witness :
  (0 < glibc_RAND_MAX)%Z /\
  (forall k, (0 <= lcg_seq k <= glibc_RAND_MAX)%Z) /\
  snd (initialize_heights glibc_RAND_MAX lcg_seq demo_zero 7) = 272%nat /\
  0 <= hexagon_heights_
         (fst (initialize_heights glibc_RAND_MAX lcg_seq demo_zero 7)) 11 11
    <= 2.5 /\
  0 <= diamond_heights_
         (fst (initialize_heights glibc_RAND_MAX lcg_seq demo_zero 7)) 10 0
    <= 2.5.
Proof.
  assert (HM : (0 < glibc_RAND_MAX)%Z) by (unfold glibc_RAND_MAX; lia).
  split; [exact HM|]. split; [exact lcg_seq_range|].
  destruct (C4_phase_count_and_range glibc_RAND_MAX lcg_seq demo_zero 7
              HM lcg_seq_range) as (Hcalls & Hhex & Hdia).
  split; [exact Hcalls|]. split.
  - apply (Hhex 11%Z 11%Z); unfold GridRows, GridColumns; lia.
  - apply (Hdia 10%Z 0%Z); unfold GridRows, GridColumns; lia.
Defined.

(** C4, as the claim has it, fails: [std::rand] may return [RAND_MAX], and
    the phase stored is then 2.5, which is not less than 2.5. Here the first
    call returns [RAND_MAX] and the phase is that of hexagon slot (0, 0). *)
Lemma C4_counterexample :
  (0 < glibc_RAND_MAX)%Z /\
  (forall k, (0 <= max_first_seq k <= glibc_RAND_MAX)%Z) /\
  hexagon_heights_
    (fst (initialize_heights glibc_RAND_MAX max_first_seq demo_zero 0)) 0 0
    = 2.5 /\
  ~ hexagon_heights_
      (fst (initialize_heights glibc_RAND_MAX max_first_seq demo_zero 0)) 0 0
    < 2.5.
Proof.
  assert (HM : (0 < glibc_RAND_MAX)%Z) by (unfold glibc_RAND_MAX; lia).
  destruct (initialize_heights_spec glibc_RAND_MAX max_first_seq demo_zero 0)
    as (_ & Hhex & _).
  specialize (Hhex 0%Z 0%Z ltac:(unfold GridRows; lia)
                ltac:(unfold GridColumns; lia)).
  change (0 + slot_index GridColumns 0 0)%nat with 0%nat in Hhex.
  change (max_first_seq 0) with glibc_RAND_MAX in Hhex.
  assert (Hval : 2.5 * IZR glibc_RAND_MAX / IZR glibc_RAND_MAX = 2.5).
  { assert (0 < IZR glibc_RAND_MAX) by now apply IZR_lt.
    unfold Rdiv. rewrite Rmult_assoc, Rinv_r by lra. lra. }
  rewrite Hval in Hhex.
  split; [exact HM|]. split; [exact max_first_seq_range|].
  split; [exact Hhex|]. rewrite Hhex. lra.
Qed.

(** C10. The order in which the random values are used. Counting the calls
    of [std::rand] from the first one [initialize_heights] makes, hexagon
    slot [(i, j)] is given the value of call [i * GridColumns + j], and
    diamond slot [(i, j)] the value of call
    [GridRows * GridColumns + i * (GridColumns - 1) + j]: all the hexagons
    first, row by row and column by column within a row, and only then all
    the diamonds, in the same order. Distinct slots of a grid are given
    distinct calls, and [GridRows * GridColumns + (GridRows - 1) *
    (GridColumns - 1)] calls are made in all. So the phases are a function of
    the sequence of random values alone: two sequences that agree on these
    calls give the same phases. *)
Theorem C10_random_values_in_row_major_order (RAND_MAX : Z)
    (rand_seq : nat -> Z) (d : Demo) (calls : nat) :
  let r := initialize_heights RAND_MAX rand_seq d calls in
  (forall i j, (0 <= i < GridRows)%Z -> (0 <= j < GridColumns)%Z ->
     hexagon_heights_ (fst r) i j =
       2.5 * IZR (rand_seq (calls + Z.to_nat (i * GridColumns + j))%nat)
       / IZR RAND_MAX /\
     (Z.to_nat (i * GridColumns + j) < hexagon_count)%nat) /\
  (forall i j, (0 <= i < GridRows - 1)%Z -> (0 <= j < GridColumns - 1)%Z ->
     diamond_heights_ (fst r) i j =
       2.5 * IZR (rand_seq (calls + hexagon_count
                            + Z.to_nat (i * (GridColumns - 1) + j))%nat)
       / IZR RAND_MAX /\
     (Z.to_nat (i * (GridColumns - 1) + j) < diamond_count)%nat) /\
  (forall cols i j i' j',
     (0 <= i)%Z -> (0 <= i')%Z -> (0 <= j < cols)%Z -> (0 <= j' < cols)%Z ->
     Z.to_nat (i * cols + j) = Z.to_nat (i' * cols + j') ->
     i = i' /\ j = j') /\
  snd r = (calls + hexagon_count + diamond_count)%nat /\
  (forall rand_seq' d',
     (forall k, (k < hexagon_count + diamond_count)%nat ->
        rand_seq' (calls + k)%nat = rand_seq (calls + k)%nat) ->
     let r' := initialize_heights RAND_MAX rand_seq' d' calls in
     (forall i j, (0 <= i < GridRows)%Z -> (0 <= j < GridColumns)%Z ->
        hexagon_heights_ (fst r') i j = hexagon_heights_ (fst r) i j) /\
     (forall i j, (0 <= i < GridRows - 1)%Z -> (0 <= j < GridColumns - 1)%Z ->
        diamond_heights_ (fst r') i j = diamond_heights_ (fst r) i j)).
Proof.
  intros r.
  destruct (initialize_heights_spec RAND_MAX rand_seq d calls)
    as (Hcalls & Hhex & Hdia & _).
  fold r in Hcalls, Hhex, Hdia.
  split; [|split; [|split; [|split]]].
  - intros i j Hi Hj. split; [now apply Hhex|].
    rewrite hexagon_count_eq. now apply (slot_index_lt GridRows).
  - intros i j Hi Hj. split; [now apply Hdia|].
    rewrite diamond_count_eq. now apply (slot_index_lt (GridRows - 1)).
  - intros cols i j i' j'. apply slot_index_inj.
  - exact Hcalls.
  - intros rand_seq' d' Hagree r'.
    destruct (initialize_heights_spec RAND_MAX rand_seq' d' calls)
      as (_ & Hhex' & Hdia' & _).
    fold r' in Hhex', Hdia'.
    split; intros i j Hi Hj.
    + rewrite Hhex', Hhex by assumption. rewrite Hagree; [reflexivity|].
      pose proof (slot_index_lt GridRows GridColumns i j Hi Hj).
      rewrite hexagon_count_eq. lia.
    + rewrite Hdia', Hdia by assumption.
      rewrite <- !Nat.add_assoc. rewrite Hagree; [reflexivity|].
      pose proof (slot_index_lt (GridRows - 1) (GridColumns - 1) i j Hi Hj).
      rewrite diamond_count_eq. lia.
Qed.

Lemma C10_random_values_in_row_major_order_witness :
  hexagon_heights_
    (fst (initialize_heights glibc_RAND_MAX lcg_seq demo_zero 0)) 3 4
    = 2.5 * IZR (lcg_seq (0 + Z.to_nat (3 * GridColumns + 4))%nat)
      / IZR glibc_RAND_MAX /\
  diamond_heights_
    (fst (initialize_heights glibc_RAND_MAX lcg_seq demo_zero 0)) 10 10
    = 2.5 * IZR (lcg_seq (0 + hexagon_count
                          + Z.to_nat (10 * (GridColumns - 1) + 10))%nat)
      / IZR glibc_RAND_MAX.
Proof.
  destruct (C10_random_values_in_row_major_order glibc_RAND_MAX lcg_seq
              demo_zero 0) as (Hhex & Hdia & _).
  split.
  - apply (Hhex 3%Z 4%Z); unfold GridRows, GridColumns; lia.
  - apply (Hdia 10%Z 10%Z); unfold GridRows, GridColumns; lia.
Defined.

(** * More properties of the code *)

(** ** The shapes and their placement *)

Lemma half_inv : 0.5 = / 2.
Proof. lra. Qed.

Lemma cos_30_sqr : cos (PI / 6) * cos (PI / 6) = 3 / 4.
Proof.
  rewrite cos_PI6.
  replace (sqrt 3 / 2 * (sqrt 3 / 2)) with (sqrt 3 * sqrt 3 / 4) by field.
  rewrite sqrt_def by lra. reflexivity.
Qed.

Lemma cos_30_pos : 0 < cos (PI / 6).
Proof.
  apply cos_gt_0.
  - pose proof PI6_RGT_0. pose proof PI2_RGT_0. lra.
  - apply PI6_RLT_PI2.
Qed.

Lemma hexagon_model_offset model i j :
  hexagon_model model i j =
  glm.mul model
    (glm.translate (glm.diag 1)
       (glm.Vec3 (fst (hexagon_offset i j)) (snd (hexagon_offset i j)) 0)).
Proof. reflexivity. Qed.

Lemma diamond_model_offset model i j :
  diamond_model model i j =
  glm.mul model
    (glm.translate (glm.diag 1)
       (glm.Vec3 (fst (diamond_offset i j)) (snd (diamond_offset i j)) 0)).
Proof. reflexivity. Qed.

Lemma hexagon_offset_eq i j :
  hexagon_offset i j =
  (2 * cos (PI / 6) * (IZR j - 11 / 2), 2 * (IZR i - 11 / 2)).
Proof.
  unfold hexagon_offset, GridRows, GridColumns. cbv zeta.
  change (12 - 1)%Z with 11%Z. rewrite half_inv. f_equal; field.
Qed.

Lemma diamond_offset_eq i j :
  diamond_offset i j =
  (2 * cos (PI / 6) * (IZR j - 5), 2 * (IZR i - 5)).
Proof.
  unfold diamond_offset, GridRows, GridColumns. cbv zeta.
  change (12 - 2)%Z with 10%Z. rewrite half_inv. f_equal; field.
Qed.

Lemma vertex_position_placed model x y v :
  vertex_position
    (glm.mul model (glm.translate (glm.diag 1) (glm.Vec3 x y 0))) v =
  glm.mul_vec model (glm.Vec4 (glm.x2 v + x) (glm.y2 v + y) 0 1).
Proof.
  destruct model as [[a0 a1 a2 a3] [b0 b1 b2 b3] [c0 c1 c2 c3] [d0 d1 d2 d3]].
  destruct v as [vx vy].
  cbv [vertex_position glm.mul glm.translate glm.diag glm.mul_vec
       glm.add4 glm.scale4
       glm.col0 glm.col1 glm.col2 glm.col3 glm.x4 glm.y4 glm.z4 glm.w4
       glm.x3 glm.y3 glm.z3 glm.x2 glm.y2].
  f_equal; ring.
Qed.

(** X1. The shapes given to the two geometries. [initialize_geometry] gives
    [hexagon_] six vertices and [diamond_] four. The hexagon is regular with
    side 1: its vertices are at distance 1 from the origin and so are
    consecutive vertices from each other. The diamond is a rhombus with side
    1. Each shape is symmetric about the origin: the vertex half a turn
    later in the list is the opposite point. *)
Theorem X1_shapes :
  initialize_geometry =
    [geometry_set_data hexagon_ hexagon_verts;
     geometry_set_data diamond_ diamond_verts] /\
  length hexagon_verts = 6%nat /\
  length diamond_verts = 4%nat /\
  Forall (fun v => sq_dist v (glm.Vec2 0 0) = 1) hexagon_verts /\
  Forall (fun e => sq_dist (fst e) (snd e) = 1) (loop_edges hexagon_verts) /\
  Forall (fun e => sq_dist (fst e) (snd e) = 1) (loop_edges diamond_verts) /\
  map opposite hexagon_verts = skipn 3 hexagon_verts ++ firstn 3 hexagon_verts /\
  map opposite diamond_verts = skipn 2 diamond_verts ++ firstn 2 diamond_verts.
Proof.
  pose proof cos_30_sqr as Hc.
  split; [reflexivity|]. split; [reflexivity|]. split; [reflexivity|].
  unfold hexagon_verts, diamond_verts, loop_edges, sq_dist, opposite.
  cbv zeta. set (c := cos (PI / 6)) in *. clearbody c.
  cbn [tl firstn app combine map skipn fst snd glm.x2 glm.y2].
  split; [|split; [|split; [|split]]].
  - repeat (constructor; [cbn [glm.x2 glm.y2]; nra|]). constructor.
  - repeat (constructor; [cbn [fst snd glm.x2 glm.y2]; nra|]). constructor.
  - repeat (constructor; [cbn [fst snd glm.x2 glm.y2]; nra|]). constructor.
  - repeat (f_equal; try (f_equal; lra)).
  - repeat (f_equal; try (f_equal; lra)).
Qed.

(** X2. The tiling interlocks. For every diamond slot [(i, j)], each of the
    four vertices of the diamond is put, by the model matrix of the diamond,
    exactly where two of the four hexagons of slots [(i, j)], [(i, j+1)],
    [(i+1, j)] and [(i+1, j+1)] have a vertex, whatever the [model] matrix:
    the left vertex at the top of hexagon [(i, j)] and the bottom of
    [(i+1, j)], the bottom vertex at the upper right of [(i, j)] and the
    upper left of [(i, j+1)], the right vertex at the top of [(i, j+1)] and
    the bottom of [(i+1, j+1)], and the top vertex at the lower right of
    [(i+1, j)] and the lower left of [(i+1, j+1)]. So the four edges of a
    diamond are edges of its four hexagons. *)
Theorem X2_diamond_between_four_hexagons (model : glm.mat4) (i j : Z) :
  let O := glm.Vec2 0 0 in
  let D k := vertex_position (diamond_model model i j) (nth k diamond_verts O) in
  let H a b k :=
    vertex_position (hexagon_model model a b) (nth k hexagon_verts O) in
  (D 2%nat = H i j 1%nat /\ D 2%nat = H (i + 1)%Z j 4%nat) /\
  (D 3%nat = H i j 0%nat /\ D 3%nat = H i (j + 1)%Z 2%nat) /\
  (D 0%nat = H i (j + 1)%Z 1%nat /\
   D 0%nat = H (i + 1)%Z (j + 1)%Z 4%nat) /\
  (D 1%nat = H (i + 1)%Z j 5%nat /\
   D 1%nat = H (i + 1)%Z (j + 1)%Z 3%nat).
Proof.
  cbv beta zeta.
  rewrite !hexagon_model_offset, !diamond_model_offset,
    !vertex_position_placed, !hexagon_offset_eq, !diamond_offset_eq.
  unfold hexagon_verts, diamond_verts. cbv zeta.
  cbn [nth fst snd glm.x2 glm.y2]. rewrite !plus_IZR.
  set (c := cos (PI / 6)). clearbody c.
  repeat split; f_equal; f_equal; first [lra | nra].
Qed.

(** X3. The grids are centred and the diamonds sit between the hexagons.
    The offsets [draw_grid] computes are point symmetric about the origin:
    the slot opposite to [(i, j)] in its grid has the opposite offset. The
    offset of diamond [(i, j)] is the mean of the offsets of the four
    hexagons [(i, j)], [(i, j+1)], [(i+1, j)] and [(i+1, j+1)], and
    neighbouring slots of a grid are [2 cos(PI/6)] apart in [x] and 2 apart
    in [y]. These are the offsets in the model matrices. *)
Theorem X3_grids_centred (model : glm.mat4) (i j : Z) :
  let h := hexagon_offset in
  let d := diamond_offset in
  h (GridRows - 1 - i)%Z (GridColumns - 1 - j)%Z
    = (- fst (h i j), - snd (h i j)) /\
  d (GridRows - 2 - i)%Z (GridColumns - 2 - j)%Z
    = (- fst (d i j), - snd (d i j)) /\
  fst (d i j) = (fst (h i j) + fst (h i (j + 1)%Z) + fst (h (i + 1)%Z j)
                 + fst (h (i + 1)%Z (j + 1)%Z)) / 4 /\
  snd (d i j) = (snd (h i j) + snd (h i (j + 1)%Z) + snd (h (i + 1)%Z j)
                 + snd (h (i + 1)%Z (j + 1)%Z)) / 4 /\
  h i (j + 1)%Z = (fst (h i j) + 2 * cos (PI / 6), snd (h i j)) /\
  h (i + 1)%Z j = (fst (h i j), snd (h i j) + 2) /\
  hexagon_model model i j =
    glm.mul model
      (glm.translate (glm.diag 1) (glm.Vec3 (fst (h i j)) (snd (h i j)) 0)) /\
  diamond_model model i j =
    glm.mul model
      (glm.translate (glm.diag 1) (glm.Vec3 (fst (d i j)) (snd (d i j)) 0)).
Proof.
  cbv zeta.
  split; [|split; [|split; [|split; [|split; [|split; [|split]]]]]].
  8: apply diamond_model_offset.
  7: apply hexagon_model_offset.
  all: rewrite ?hexagon_offset_eq, ?diamond_offset_eq;
    unfold GridRows, GridColumns; cbn [fst snd];
    rewrite ?minus_IZR, ?plus_IZR;
    set (c := cos (PI / 6)); clearbody c.
  - f_equal; first [lra | nra].
  - f_equal; first [lra | nra].
  - nra.
  - lra.
  - f_equal; first [lra | nra].
  - f_equal; first [lra | nra].
Qed.

Lemma offset_eq_inv (a b a' b' : Z) (s : R) (k : R) :
  0 < s ->
  (2 * s * (IZR a - k), 2 * (IZR b - k))
    = (2 * s * (IZR a' - k), 2 * (IZR b' - k)) ->
  b = b' /\ a = a'.
Proof.
  intros Hs H. injection H as Hx Hy.
  split; apply eq_IZR; [lra|].
  apply (Rmult_eq_reg_l (2 * s)) in Hx; lra.
Qed.

(** X4. No two tiles of a grid are put at the same place: slots of the
    hexagon grid with the same offset are the same slot, and so for the
    diamond grid. *)
Theorem X4_slots_have_distinct_offsets (i j i' j' : Z) :
  hexagon_offset i j = hexagon_offset i' j' \/
  diamond_offset i j = diamond_offset i' j' ->
  i = i' /\ j = j'.
Proof.
  rewrite !hexagon_offset_eq, !diamond_offset_eq.
  intros [H|H]; eapply (offset_eq_inv _ _ _ _ _ _ cos_30_pos) in H;
    tauto.
Qed.

Lemma X4_slots_have_distinct_offsets_witness :
  hexagon_offset 3 4 = hexagon_offset 3 4 /\ (3 = 3 /\ 4 = 4)%Z.
Proof.
  split; [reflexivity|].
  apply (X4_slots_have_distinct_offsets 3 4 3 4). left. reflexivity.
Defined.

(** ** The frame *)

Lemma Demo_new_calls RAND_MAX rand_seq w h hexagon0 diamond0 calls :
  fst (fst (Demo_new RAND_MAX rand_seq w h hexagon0 diamond0 calls)) =
  initialize_shader ++ initialize_geometry.
Proof.
  unfold Demo_new. now destruct (initialize_heights _ _ _ _).
Qed.

Lemma tile_draws_render d :
  tile_draws (render d) = all_tiles d render_model ++ all_tiles d render_model.
Proof.
  rewrite render_eq. unfold tile_draws.
  change (glDisable GL_POLYGON_OFFSET_FILL :: shadow_buffer_unbind :: ?l)
    with ([glDisable GL_POLYGON_OFFSET_FILL; shadow_buffer_unbind] ++ l).
  rewrite !read_from_app, !tile_draws_draw_grid.
  change (read_from draw_of no_state shadow_setup) with (@nil tile_draw).
  cbn [read_from draw_of app]. f_equal; reflexivity.
Qed.

(** X5. No draw reads past the end of a vertex list. Every [glDrawArrays] of
    a frame is made with a geometry bound, draws a line loop from vertex 0,
    and draws exactly as many vertices as the constructor of [Demo] gave
    that geometry: 6 for [hexagon_], 4 for [diamond_]. A frame has 530
    draws. *)
Theorem X5_draws_fit_the_vertex_lists (RAND_MAX : Z) (rand_seq : nat -> Z)
    (w h : Z) (hexagon0 diamond0 : Z -> Z -> R) (calls : nat) (d : Demo) :
  let constructor_calls :=
    fst (fst (Demo_new RAND_MAX rand_seq w h hexagon0 diamond0 calls)) in
  Forall (fun t =>
            exists g verts,
              tile_geometry t = Some g /\
              data_set constructor_calls g = Some verts /\
              tile_mode t = GL_LINE_LOOP /\
              tile_first t = 0%Z /\
              tile_count t = Z.of_nat (length verts))
         (tile_draws (render d)) /\
  length (tile_draws (render d)) = 530%nat.
Proof.
  cbv zeta. rewrite Demo_new_calls, tile_draws_render. split.
  - assert (Hall : Forall (fun t =>
        exists g verts,
          tile_geometry t = Some g /\
          data_set (initialize_shader ++ initialize_geometry) g = Some verts /\
          tile_mode t = GL_LINE_LOOP /\
          tile_first t = 0%Z /\
          tile_count t = Z.of_nat (length verts)) (all_tiles d render_model)).
    { unfold all_tiles. apply Forall_app. split;
        apply Forall_forall; intros t Ht; apply grid_In in Ht;
        destruct Ht as (i & j & _ & _ & ->).
      - exists hexagon_, hexagon_verts. repeat split.
      - exists diamond_, diamond_verts. repeat split. }
    apply Forall_app. split; exact Hall.
  - rewrite length_app, all_tiles_length. reflexivity.
Qed.

Lemma grid_call_neutral c call :
  grid_call call = true -> context_step c call = c.
Proof.
  destruct call; try discriminate; try reflexivity.
Qed.

Lemma draw_contexts_app c l1 l2 :
  draw_contexts c (l1 ++ l2) =
  draw_contexts c l1 ++ draw_contexts (context_after c l1) l2.
Proof.
  revert c. induction l1 as [|call l1 IH]; intros c; simpl; [reflexivity|].
  now rewrite IH, app_assoc.
Qed.

Lemma draw_contexts_neutral l : forall c st,
  Forall (fun call => grid_call call = true) l ->
  draw_contexts c l = repeat c (length (read_from draw_of st l)) /\
  context_after c l = c.
Proof.
  induction l as [|call l IH]; intros c st Hl; [split; reflexivity|].
  inversion Hl as [|? ? Hcall Hrest]; subst.
  unfold context_after. simpl.
  rewrite (grid_call_neutral c call Hcall).
  destruct (IH c (observe st call) Hrest) as [IH1 IH2].
  rewrite IH1, length_app. split; [|exact IH2].
  destruct call; try discriminate; reflexivity.
Qed.

Lemma draw_contexts_draw_grid c d program model :
  draw_contexts c (draw_grid d program model) =
    repeat c (hexagon_count + diamond_count) /\
  context_after c (draw_grid d program model) = c.
Proof.
  destruct (draw_contexts_neutral (draw_grid d program model) c no_state
              (draw_grid_calls d program model)) as [H1 H2].
  split; [|exact H2].
  now rewrite H1, tile_draws_draw_grid, all_tiles_length.
Qed.

Lemma context_after_app c l1 l2 :
  context_after c (l1 ++ l2) = context_after (context_after c l1) l2.
Proof. apply fold_left_app. Qed.

Lemma draw_contexts_render c0 d :
  draw_contexts c0 (render d) =
    repeat (shadow_context (ctx_depth_test c0)) (hexagon_count + diamond_count)
    ++ repeat (color_context d) (hexagon_count + diamond_count) /\
  context_after c0 (render d) = color_context d.
Proof.
  rewrite render_eq.
  change (glDisable GL_POLYGON_OFFSET_FILL :: shadow_buffer_unbind :: ?l)
    with ([glDisable GL_POLYGON_OFFSET_FILL; shadow_buffer_unbind] ++ l).
  rewrite !draw_contexts_app, !context_after_app.
  change (context_after c0 shadow_setup)
    with (shadow_context (ctx_depth_test c0)).
  destruct (draw_contexts_draw_grid (shadow_context (ctx_depth_test c0))
              d program_ render_model) as [-> ->].
  change (draw_contexts c0 shadow_setup) with (@nil gl_context).
  change (context_after
            (context_after (shadow_context (ctx_depth_test c0))
               [glDisable GL_POLYGON_OFFSET_FILL; shadow_buffer_unbind])
            (color_setup d))
    with (color_context d).
  destruct (draw_contexts_draw_grid (color_context d) d program_ render_model)
    as [-> ->].
  split; reflexivity.
Qed.

(** X6. The OpenGL state of every draw. Whatever the state before a frame,
    every draw of the shadow pass is made with the shadow buffer as target,
    the viewport of [ShadowWidth] by [ShadowHeight], [shadow_program_] in
    use and polygon offset on, and every draw of the color pass with the
    shadow buffer unbound, the viewport of the window, [program_] in use,
    polygon offset off and the depth test on; blending and face culling are
    off and multisampling on in both. [render] enables the depth test only
    in the color pass and never disables it: the draws of the shadow pass
    have the depth test as it was before the frame, which is on from the
    second frame on, and the state after a frame does not depend on the
    state before it. *)
Theorem X6_state_of_every_draw (c0 : gl_context) (d d' : Demo) :
  draw_contexts c0 (render d) =
    repeat (mkContext (Some (0, 0, ShadowWidth, ShadowHeight)%Z) true
                      (Some shadow_program_) false false true true
                      (ctx_depth_test c0)) 265
    ++ repeat (mkContext (Some (0, 0, window_width_ d, window_height_ d)%Z)
                         false (Some program_) false false true false true)
              265 /\
  context_after c0 (render d) =
    mkContext (Some (0, 0, window_width_ d, window_height_ d)%Z)
              false (Some program_) false false true false true /\
  firstn 265 (draw_contexts (context_after c0 (render d)) (render d')) =
    repeat (mkContext (Some (0, 0, ShadowWidth, ShadowHeight)%Z) true
                      (Some shadow_program_) false false true true true) 265.
Proof.
  destruct (draw_contexts_render c0 d) as [H1 H2].
  split; [exact H1|]. split; [exact H2|].
  rewrite H2. destruct (draw_contexts_render (color_context d) d') as [-> _].
  rewrite firstn_app, firstn_all2 by (rewrite repeat_length; reflexivity).
  rewrite repeat_length.
  change (265 - (hexagon_count + diamond_count))%nat with 0%nat.
  apply app_nil_r.
Qed.

Lemma for_emit_nil {A B} (f : A -> list B) rows cols (blk : Z -> Z -> list A) :
  (forall i j, flat_map f (blk i j) = []) ->
  flat_map f (for_emit rows (fun i => for_emit cols (blk i))) = [].
Proof.
  intros H. rewrite for_emit_flat_map. unfold for_emit.
  assert (Hin : forall i,
             flat_map (fun j => flat_map f (blk i j)) (range cols) = []).
  { intros i. induction (range cols) as [|j lc IHc]; simpl; [reflexivity|].
    now rewrite H. }
  induction (range rows) as [|i l IH]; simpl; [reflexivity|].
  now rewrite Hin.
Qed.

(** Uniforms that [draw_grid] does not set: any uniform of [shadow_program_],
    and the uniforms of [program_] that [render] sets once. *)
Lemma uniform_sets_draw_grid p name d program model :
  (shader_program_eqb program_ p
   && (String.eqb "modelMatrix" name || String.eqb "height" name))%bool
    = false ->
  uniform_sets p name (draw_grid d program model) = [].
Proof.
  intros H. rewrite draw_grid_eq. unfold uniform_sets.
  change (geometry_bind hexagon_ :: ?l) with ([geometry_bind hexagon_] ++ l).
  rewrite flat_map_app.
  change (geometry_bind diamond_ :: ?l) with ([geometry_bind diamond_] ++ l).
  rewrite !flat_map_app.
  rewrite !for_emit_nil; [reflexivity| |];
    intros i j; unfold hexagon_block, diamond_block; cbn [flat_map app];
    destruct (shader_program_eqb program_ p); cbn [andb] in *;
    try reflexivity;
    destruct (String.eqb "modelMatrix" name), (String.eqb "height" name);
    cbn [orb] in H; try discriminate; reflexivity.
Qed.

Lemma uniform_sets_render p name d :
  (shader_program_eqb program_ p
   && (String.eqb "modelMatrix" name || String.eqb "height" name))%bool
    = false ->
  uniform_sets p name (render d) =
  uniform_sets p name shadow_setup ++ uniform_sets p name (color_setup d).
Proof.
  intros H. rewrite render_eq.
  change (glDisable GL_POLYGON_OFFSET_FILL :: shadow_buffer_unbind :: ?l)
    with ([glDisable GL_POLYGON_OFFSET_FILL; shadow_buffer_unbind] ++ l).
  unfold uniform_sets at 1. rewrite !flat_map_app.
  fold (uniform_sets p name (draw_grid d program_ render_model)).
  rewrite (uniform_sets_draw_grid p name d program_ render_model H).
  cbn [flat_map app]. now rewrite app_nil_r.
Qed.

(** X7. The matrices of a frame. In every frame, [shadow_program_] is given
    its [viewProjectionMatrix] once and [program_] its [lightViewProjection]
    once, and the two are the same matrix: the orthographic projection times
    the view from the point that [program_] is given as [lightPosition]. It
    is the same for every object and every frame. [program_] is given its
    own [viewProjectionMatrix] once, which depends on the object through the
    size of the window only. *)
Theorem X7_light_matrix_shared (d : Demo) :
  let light :=
    glm.mul (glm.ortho (-10) 10 (-10) 10 1 50)
            (glm.lookAt (glm.Vec3 (-6) (-12) 15) (glm.Vec3 0 0 0)
                        (glm.Vec3 0 1 0)) in
  uniform_sets shadow_program_ "viewProjectionMatrix" (render d)
    = [UMat4 light] /\
  uniform_sets program_ "lightViewProjection" (render d) = [UMat4 light] /\
  uniform_sets program_ "lightPosition" (render d)
    = [UVec3 (glm.Vec3 (-6) (-12) 15)] /\
  uniform_sets program_ "viewProjectionMatrix" (render d)
    = [UMat4 (camera_view_projection (window_width_ d) (window_height_ d))].
Proof.
  cbv zeta. repeat split; rewrite uniform_sets_render; reflexivity.
Qed.

(** ** The phases and the heights *)

Lemma flat_map_ext_In {A B} (f g : A -> list B) l :
  (forall a, In a l -> f a = g a) -> flat_map f l = flat_map g l.
Proof.
  induction l as [|a l IH]; intros H; simpl; [reflexivity|].
  rewrite (H a (or_introl eq_refl)), IH; [reflexivity|].
  intros b Hb. apply H. now right.
Qed.

Lemma for_emit_ext_in {A} rows cols (blk blk' : Z -> Z -> list A) :
  (forall i j, (0 <= i < rows)%Z -> (0 <= j < cols)%Z ->
     blk i j = blk' i j) ->
  for_emit rows (fun i => for_emit cols (blk i)) =
  for_emit rows (fun i => for_emit cols (blk' i)).
Proof.
  intros H. unfold for_emit.
  apply flat_map_ext_In. intros i Hi. apply range_In in Hi.
  apply flat_map_ext_In. intros j Hj. apply range_In in Hj.
  now apply H.
Qed.

Lemma render_same_scene d d' : same_scene d d' -> render d = render d'.
Proof.
  intros (Hw & Hh & Ht & Hhex & Hdia).
  rewrite !render_eq, !draw_grid_eq. unfold color_setup.
  rewrite Hw, Hh.
  rewrite (for_emit_ext_in GridRows GridColumns
             (hexagon_block d render_model) (hexagon_block d' render_model)).
  - rewrite (for_emit_ext_in (GridRows - 1) (GridColumns - 1)
               (diamond_block d render_model) (diamond_block d' render_model)).
    + reflexivity.
    + intros i j Hi Hj. unfold diamond_block. now rewrite Ht, Hdia.
  - intros i j Hi Hj. unfold hexagon_block. now rewrite Ht, Hhex.
Qed.

Lemma run_same_scene dts : forall d d',
  same_scene d d' ->
  fst (run d dts) = fst (run d' dts) /\
  same_scene (snd (run d dts)) (snd (run d' dts)).
Proof.
  induction dts as [|dt dts IH]; intros d d' H; [split; [reflexivity|exact H]|].
  simpl.
  assert (H1 : same_scene (at_time d (cur_time_ d + dt))
                          (at_time d' (cur_time_ d' + dt))).
  { destruct H as (Hw & Hh & Ht & Hhex & Hdia). unfold same_scene, at_time.
    cbn [window_width_ window_height_ cur_time_ hexagon_heights_
         diamond_heights_]. rewrite Ht. auto. }
  destruct (IH _ _ H1) as [IHf IHs]. unfold at_time in IHf, IHs.
  destruct (run _ dts) as [f1 d1]. destruct (run _ dts) as [f2 d2].
  cbn [fst snd] in *. split; [|exact IHs].
  now rewrite (render_same_scene d d' H), IHf.
Qed.

Lemma Demo_new_object RAND_MAX rand_seq w h hexagon0 diamond0 calls :
  snd (fst (Demo_new RAND_MAX rand_seq w h hexagon0 diamond0 calls)) =
  fst (initialize_heights RAND_MAX rand_seq
         (mkDemo hexagon0 diamond0 w h 0) calls).
Proof.
  unfold Demo_new. now destruct (initialize_heights _ _ _ _).
Qed.

(** X8. No uninitialised phase is ever drawn. The two arrays of phases have
    no initializer, but the constructor stores a phase in every slot that
    [draw_grid] reads: whatever the arrays hold before, the object draws the
    same frames, for any elapsed times given to [render_and_step]. *)
Theorem X8_frames_do_not_depend_on_uninitialised_memory
    (RAND_MAX : Z) (rand_seq : nat -> Z) (w h : Z)
    (hexagon0 diamond0 hexagon0' diamond0' : Z -> Z -> R) (calls : nat)
    (dts : list R) :
  let d := snd (fst (Demo_new RAND_MAX rand_seq w h hexagon0 diamond0 calls)) in
  let d' :=
    snd (fst (Demo_new RAND_MAX rand_seq w h hexagon0' diamond0' calls)) in
  fst (run d dts) = fst (run d' dts).
Proof.
  cbv zeta. rewrite !Demo_new_object. apply run_same_scene.
  destruct (initialize_heights_spec RAND_MAX rand_seq
              (mkDemo hexagon0 diamond0 w h 0) calls)
    as (_ & Hhex & Hdia & Hw & Hh & Ht).
  destruct (initialize_heights_spec RAND_MAX rand_seq
              (mkDemo hexagon0' diamond0' w h 0) calls)
    as (_ & Hhex' & Hdia' & Hw' & Hh' & Ht').
  unfold same_scene. rewrite Hw, Hw', Hh, Hh', Ht, Ht'.
  split; [reflexivity|]. split; [reflexivity|]. split; [reflexivity|].
  split.
  - intros i j Hi Hj. now rewrite Hhex, Hhex'.
  - intros i j Hi Hj. now rewrite Hdia, Hdia'.
Qed.

Lemma PI_gt_3 : 3 < PI.
Proof. pose proof PI2_3_2. lra. Qed.

(** X9. Every tile starts in the upper half of its range. When [std::rand]
    returns values from 0 to [RAND_MAX], the phases lie in [[0, 2.5]], which
    is less than half a period: as long as the clock [t] of a constructed
    object is between 0 and [PI - 2.5], in particular in its first frame,
    every height drawn is between 2.5 and 5. *)
Theorem X9_tiles_start_in_upper_half (RAND_MAX : Z) (rand_seq : nat -> Z)
    (w h : Z) (hexagon0 diamond0 : Z -> Z -> R) (calls : nat) (t : R) :
  (0 < RAND_MAX)%Z ->
  (forall k, (0 <= rand_seq k <= RAND_MAX)%Z) ->
  0 <= t <= PI - 2.5 ->
  let d := snd (fst (Demo_new RAND_MAX rand_seq w h hexagon0 diamond0 calls)) in
  cur_time_ d = 0 /\
  Forall (fun x => 2.5 <= x <= 5) (heights (render (at_time d t))).
Proof.
  intros HM Hrange Ht. cbv zeta. rewrite Demo_new_object.
  destruct (initialize_heights_spec RAND_MAX rand_seq
              (mkDemo hexagon0 diamond0 w h 0) calls)
    as (_ & Hhex & Hdia & _ & _ & Hclock).
  split; [exact Hclock|].
  set (d := fst (initialize_heights _ _ _ _)) in *.
  assert (Hup : forall p, 0 <= p <= 2.5 -> 2.5 <= height t p <= 5).
  { intros p Hp. split; [|apply height_bounds].
    unfold height. assert (0 <= sin (t + p)) by (apply sin_ge_0; lra). lra. }
  rewrite heights_render, heights_draw_grid.
  cbn [at_time cur_time_ hexagon_heights_ diamond_heights_].
  rewrite !Forall_app. repeat split;
    apply Forall_forall; intros x Hx; apply grid_In in Hx;
    destruct Hx as (i & j & Hi & Hj & ->); apply Hup.
  - rewrite Hhex by assumption. now apply phase_bounds.
  - rewrite Hdia by assumption. now apply phase_bounds.
  - rewrite Hhex by assumption. now apply phase_bounds.
  - rewrite Hdia by assumption. now apply phase_bounds.
Qed.

Lemma X9_tiles_start_in_upper_half_witness :
  (0 < glibc_RAND_MAX)%Z /\
  (forall k, (0 <= lcg_seq k <= glibc_RAND_MAX)%Z) /\
  0 <= 0 <= PI - 2.5 /\
  Forall (fun x => 2.5 <= x <= 5)
    (heights
       (render
          (at_time
             (snd (fst (Demo_new glibc_RAND_MAX lcg_seq 800 800
                          (fun _ _ => 0) (fun _ _ => 0) 0))) 0))).
Proof.
  assert (HM : (0 < glibc_RAND_MAX)%Z) by (unfold glibc_RAND_MAX; lia).
  assert (Ht : 0 <= 0 <= PI - 2.5) by (pose proof PI_gt_3; lra).
  split; [exact HM|]. split; [exact lcg_seq_range|]. split; [exact Ht|].
  apply (X9_tiles_start_in_upper_half glibc_RAND_MAX lcg_seq 800 800
           (fun _ _ => 0) (fun _ _ => 0) 0 0 HM lcg_seq_range Ht).
Defined.

(** X10. The range of the height is exactly [[0, 5]]: for every phase the
    height reaches 5 and reaches 0, a quarter of a period before and after
    the clock value [- p]. Half a period later a tile is at the height
    mirrored about 2.5; and a later clock is the same as a larger phase. *)
Theorem X10_height_range_is_tight (t p a : R) :
  height (PI / 2 - p) p = 5 /\
  height (- (PI / 2) - p) p = 0 /\
  height (t + PI) p = 5 - height t p /\
  height (t + a) p = height t (p + a).
Proof.
  unfold height. repeat split.
  - replace (PI / 2 - p + p) with (PI / 2) by ring. rewrite sin_PI2. lra.
  - replace (- (PI / 2) - p + p) with (- (PI / 2)) by ring.
    rewrite sin_neg, sin_PI2. lra.
  - replace (t + PI + p) with (t + p + PI) by ring. rewrite neg_sin. lra.
  - f_equal. f_equal. f_equal. ring.
Qed.

(** ** The loop of [main] *)

Lemma poll_events_set es : poll_events es true = true.
Proof.
  unfold poll_events.
  induction es as [|e es IH]; simpl; [reflexivity|].
  destruct e as [key scancode action mode|]; [|exact IH].
  destruct (key_callback key scancode action mode); exact IH.
Qed.

Lemma poll_events_cons e es flag :
  poll_events (e :: es) flag =
  poll_events es
    match e with
    | key_event key scancode action mode =>
        if key_callback key scancode action mode then true else flag
    | close_request => true
    end.
Proof. reflexivity. Qed.

Lemma poll_events_closing es :
  poll_events es false = true <-> closes es.
Proof.
  unfold closes. induction es as [|e es IH].
  - split; [discriminate|]. intros (e & [] & _).
  - rewrite poll_events_cons. destruct e as [key scancode action mode|].
    + unfold key_callback.
      destruct (Z.eqb_spec key GLFW_KEY_ESCAPE) as [->|Hk];
        [destruct (Z.eqb_spec action GLFW_PRESS) as [->|Ha]|]; cbn [andb].
      * rewrite poll_events_set. split; [|reflexivity]. intros _.
        exists (key_event GLFW_KEY_ESCAPE scancode GLFW_PRESS mode).
        split; [now left|]. right. now exists scancode, mode.
      * rewrite IH. split.
        -- intros (e & He & Hc). exists e. split; [now right|exact Hc].
        -- intros (e & [He|He] & Hc); [|now exists e].
           subst e. destruct Hc as [Hc|(s & m & Hc)]; [discriminate|].
           injection Hc as _ Hc _. contradiction.
      * rewrite IH. split.
        -- intros (e & He & Hc). exists e. split; [now right|exact Hc].
        -- intros (e & [He|He] & Hc); [|now exists e].
           subst e. destruct Hc as [Hc|(s & m & Hc)]; [discriminate|].
           injection Hc as Hc _ _ _. contradiction.
    + rewrite poll_events_set. split; [|reflexivity]. intros _.
      exists close_request. split; [now left|now left].
Qed.

Lemma at_time_at_time d t t' : at_time (at_time d t) t' = at_time d t'.
Proof. reflexivity. Qed.

Section LiveLoop.

Variable glfwGetTime : nat -> R.
Variable events : nat -> list window_event.

Lemma live_step fuel st :
  ls_should_close st = false ->
  main_loop false glfwGetTime events (S fuel) st =
  match main_loop false glfwGetTime events fuel
          (mkLoop (at_time (ls_demo st) (live_clock glfwGetTime st 1))
                  (glfwGetTime (ls_time_calls st)) (ls_frame_num st)
                  (S (ls_time_calls st)) (S (ls_polls st))
                  (poll_events (events (ls_polls st)) false))
  with
  | None => None
  | Some (calls, st') =>
      Some (demo_render_and_step (render (ls_demo st)) ::
            glfwSwapBuffers :: glfwPollEvents :: calls, st')
  end.
Proof.
  intros Hflag. cbn [main_loop]. rewrite Hflag. cbv zeta.
  rewrite render_and_step_eq. unfold live_clock.
  now rewrite Nat.add_0_r.
Qed.

Lemma live_clock_step st k :
  live_clock glfwGetTime
    (mkLoop (at_time (ls_demo st) (live_clock glfwGetTime st 1))
            (glfwGetTime (ls_time_calls st)) (ls_frame_num st)
            (S (ls_time_calls st)) (S (ls_polls st))
            (poll_events (events (ls_polls st)) false)) k
  = live_clock glfwGetTime st (S k).
Proof.
  destruct k as [|k]; unfold live_clock; cbn [ls_demo ls_curTime
    ls_time_calls at_time cur_time_].
  - reflexivity.
  - rewrite Nat.add_0_r.
    replace (S (ls_time_calls st) + k)%nat with (ls_time_calls st + S k)%nat
      by lia.
    ring.
Qed.

Lemma live_loop_ends n : forall st fuel,
  ls_should_close st = false ->
  (forall k, (k < n)%nat ->
     poll_events (events (ls_polls st + k)) false = false) ->
  poll_events (events (ls_polls st + n)) false = true ->
  (n + 2 <= fuel)%nat ->
  exists calls st',
    main_loop false glfwGetTime events fuel st = Some (calls, st') /\
    frames_of calls =
      map (fun k => render (at_time (ls_demo st) (live_clock glfwGetTime st k)))
          (seq 0 (S n)) /\
    length calls = (3 * S n)%nat /\
    cur_time_ (ls_demo st') = live_clock glfwGetTime st (S n).
Proof.
  induction n as [|n IH]; intros st fuel Hflag Hno Hyes Hfuel;
    (destruct fuel as [|fuel]; [lia|]); rewrite (live_step fuel st Hflag).
  - rewrite Nat.add_0_r in Hyes. rewrite Hyes.
    destruct fuel as [|fuel]; [lia|]. cbn [main_loop ls_should_close].
    eexists _, _. split; [reflexivity|].
    cbn [frames_of flat_map app seq map length ls_demo].
    split; [|split; [reflexivity|reflexivity]].
    cbn [live_clock]. now rewrite at_time_same.
  - set (st1 := mkLoop _ _ _ _ _ _).
    destruct (IH st1 fuel) as (calls & st' & Hloop & Hframes & Hlen & Hclock).
    + subst st1. cbn [ls_should_close]. specialize (Hno 0%nat).
      rewrite Nat.add_0_r in Hno. apply Hno. lia.
    + intros k Hk. subst st1. cbn [ls_polls].
      replace (S (ls_polls st) + k)%nat with (ls_polls st + S k)%nat by lia.
      apply Hno. lia.
    + subst st1. cbn [ls_polls].
      replace (S (ls_polls st) + n)%nat with (ls_polls st + S n)%nat by lia.
      exact Hyes.
    + lia.
    + rewrite Hloop. eexists _, _. split; [reflexivity|].
      split; [|split].
      * cbn [frames_of flat_map app]. fold (frames_of calls).
        rewrite Hframes.
        change (seq 0 (S (S n))) with (0%nat :: seq 1 (S n)).
        rewrite <- seq_shift. cbn [map]. rewrite map_map.
        cbn [live_clock]. rewrite at_time_same. f_equal.
        apply map_ext. intros k. subst st1. cbn [ls_demo].
        now rewrite at_time_at_time, live_clock_step.
      * cbn [length]. rewrite Hlen. lia.
      * rewrite Hclock. subst st1. apply live_clock_step.
Qed.

Lemma live_loop_runs fuel : forall st,
  ls_should_close st = false ->
  (forall k, poll_events (events k) false = false) ->
  main_loop false glfwGetTime events fuel st = None.
Proof.
  induction fuel as [|fuel IH]; intros st Hflag Hno; [reflexivity|].
  rewrite (live_step fuel st Hflag), IH; [reflexivity| |exact Hno].
  cbn [ls_should_close]. apply Hno.
Qed.

End LiveLoop.

Lemma poll_events_not_closing es :
  ~ closes es -> poll_events es false = false.
Proof.
  intros H. destruct (poll_events es false) eqn:E; [|reflexivity].
  apply poll_events_closing in E. contradiction.
Qed.

Lemma Demo_new_eq RAND_MAX rand_seq w h hexagon0 diamond0 calls :
  Demo_new RAND_MAX rand_seq w h hexagon0 diamond0 calls =
  (initialize_shader ++ initialize_geometry,
   snd (fst (Demo_new RAND_MAX rand_seq w h hexagon0 diamond0 calls)),
   snd (Demo_new RAND_MAX rand_seq w h hexagon0 diamond0 calls)).
Proof.
  unfold Demo_new. now destruct (initialize_heights _ _ _ _).
Qed.

Lemma Demo_new_clock RAND_MAX rand_seq w h hexagon0 diamond0 calls :
  cur_time_
    (snd (fst (Demo_new RAND_MAX rand_seq w h hexagon0 diamond0 calls))) = 0.
Proof.
  rewrite Demo_new_object.
  now destruct (initialize_heights_spec RAND_MAX rand_seq
                  (mkDemo hexagon0 diamond0 w h 0) calls)
    as (_ & _ & _ & _ & _ & H).
Qed.

(** X11. The frames of a run without [DUMP_FRAMES]. If the poll of
    iteration [n] (from 0) is the first to deliver a close request or a press
    of Escape, [main] ends after drawing [n + 1] frames, each followed by a
    buffer swap and a poll, and frame [k] shows the scene at clock
    [glfwGetTime k - glfwGetTime 0], where [glfwGetTime 0] is the time read
    before the loop and [glfwGetTime k] the time read in iteration [k - 1]:
    the clock follows the time of [glfwGetTime], one iteration behind. *)
Theorem X11_live_frames (glfwGetTime : nat -> R)
    (events : nat -> list window_event) (RAND_MAX : Z) (rand_seq : nat -> Z)
    (hexagon0 diamond0 : Z -> Z -> R) (n fuel : nat) :
  (forall k, (k < n)%nat -> ~ closes (events k)) ->
  closes (events n) ->
  (n + 2 <= fuel)%nat ->
  let d :=
    snd (fst (Demo_new RAND_MAX rand_seq window_width window_height
                       hexagon0 diamond0 0)) in
  exists calls,
    main false glfwGetTime events RAND_MAX rand_seq hexagon0 diamond0 fuel
      = Some calls /\
    frames_of calls =
      map (fun k => render (at_time d (glfwGetTime k - glfwGetTime 0%nat)))
          (seq 0 (S n)) /\
    length calls = (3 + 3 * S n)%nat.
Proof.
  intros Hno Hyes Hfuel d. unfold main.
  rewrite Demo_new_eq. fold d.
  destruct (live_loop_ends glfwGetTime events n
              (mkLoop d (glfwGetTime 0%nat) 0 1 0 false) fuel)
    as (calls & st' & Hloop & Hframes & Hlen & _).
  - reflexivity.
  - intros k Hk. apply poll_events_not_closing. now apply Hno.
  - now apply poll_events_closing.
  - exact Hfuel.
  - rewrite Hloop. eexists. split; [reflexivity|]. split.
    + cbn [frames_of flat_map app]. fold (frames_of calls). rewrite Hframes.
      apply map_ext. intros k. cbn [ls_demo]. f_equal. f_equal.
      pose proof (Demo_new_clock RAND_MAX rand_seq window_width window_height
                    hexagon0 diamond0 0) as Hclock. fold d in Hclock.
      destruct k as [|k]; cbn [live_clock ls_demo ls_curTime ls_time_calls];
        rewrite Hclock; [ring|].
      cbn [Nat.add]. ring.
    + cbn [length]. rewrite Hlen. reflexivity.
Qed.

Lemma X11_live_frames_witness :
  closes [key_event 65 0 GLFW_PRESS 0;
          key_event GLFW_KEY_ESCAPE 9 GLFW_PRESS 0] /\
  exists calls,
    main false (fun k => INR k / 60)
         (fun k => match k with
                   | 2%nat => [key_event 65 0 GLFW_PRESS 0;
                               key_event GLFW_KEY_ESCAPE 9 GLFW_PRESS 0]
                   | _ => []
                   end)
         glibc_RAND_MAX lcg_seq (fun _ _ => 0) (fun _ _ => 0) 4
      = Some calls /\
    length calls = 12%nat.
Proof.
  assert (Hyes : closes [key_event 65 0 GLFW_PRESS 0;
                         key_event GLFW_KEY_ESCAPE 9 GLFW_PRESS 0]).
  { exists (key_event GLFW_KEY_ESCAPE 9 GLFW_PRESS 0).
    split; [right; now left|]. right. now exists 9%Z, 0%Z. }
  split; [exact Hyes|].
  destruct (X11_live_frames (fun k => INR k / 60)
              (fun k => match k with
                        | 2%nat => [key_event 65 0 GLFW_PRESS 0;
                                    key_event GLFW_KEY_ESCAPE 9 GLFW_PRESS 0]
                        | _ => []
                        end)
              glibc_RAND_MAX lcg_seq (fun _ _ => 0) (fun _ _ => 0) 2 4)
    as (calls & Hmain & _ & Hlen).
  - intros k Hk (e & He & _).
    destruct k as [|[|k]]; [destruct He|destruct He|lia].
  - exact Hyes.
  - lia.
  - exists calls. split; [exact Hmain|exact Hlen].
Defined.

(** X12. Without [DUMP_FRAMES], nothing but a close request or a press of
    Escape ends the loop: while no poll delivers one of them (other keys
    pressed, Escape released or repeated), the loop is still running after
    any number of iterations. *)
Theorem X12_live_loop_runs_until_closed (glfwGetTime : nat -> R)
    (events : nat -> list window_event) (RAND_MAX : Z) (rand_seq : nat -> Z)
    (hexagon0 diamond0 : Z -> Z -> R) (fuel : nat) :
  (forall k, ~ closes (events k)) ->
  main false glfwGetTime events RAND_MAX rand_seq hexagon0 diamond0 fuel
    = None.
Proof.
  intros Hno. unfold main. rewrite Demo_new_eq.
  rewrite live_loop_runs; [reflexivity|reflexivity|].
  intros k. now apply poll_events_not_closing.
Qed.

Lemma X12_live_loop_runs_until_closed_witness :
  main false (fun k => INR k / 60)
       (fun _ => [key_event 65 0 GLFW_PRESS 0;
                  key_event GLFW_KEY_ESCAPE 9 0 0;
                  key_event GLFW_KEY_ESCAPE 9 2 0])
       glibc_RAND_MAX lcg_seq (fun _ _ => 0) (fun _ _ => 0) 1000
    = None.
Proof.
  apply X12_live_loop_runs_until_closed.
  intros k (e & He & Hc).
  destruct He as [<-|[<-|[<-|[]]]];
    (destruct Hc as [Hc|(s & m & Hc)]; [discriminate Hc|]);
    unfold GLFW_KEY_ESCAPE, GLFW_PRESS in Hc; discriminate Hc.
Defined.

Section DumpLoop.

Variable glfwGetTime : nat -> R.
Variable events : nat -> list window_event.

Lemma total_frames_eq : total_frames = 120.
Proof. unfold total_frames, CycleDuration, FramesPerSecond. lra. Qed.

Lemma last_frame_dec (f : Z) :
  (if Req_dec_T (IZR (f + 1)) total_frames then true else false) =
  (f + 1 =? 120)%Z.
Proof.
  rewrite total_frames_eq.
  destruct (Req_dec_T (IZR (f + 1)) 120) as [H|H];
    destruct (Z.eqb_spec (f + 1) 120) as [E|E]; try reflexivity.
  - apply eq_IZR in H. contradiction.
  - rewrite E in H. contradiction.
Qed.

(** One iteration with [DUMP_FRAMES]. *)
Lemma dump_step fuel st :
  ls_should_close st = false ->
  main_loop true glfwGetTime events (S fuel) st =
  let d1 := at_time (ls_demo st) (cur_time_ (ls_demo st) + 1 / 40) in
  let frame := demo_render_and_step (render (ls_demo st)) in
  let dump :=
    dump_frame_to_file (frame_path (ls_frame_num st))
                       window_width window_height in
  if (ls_frame_num st + 1 =? 120)%Z
  then Some ([frame; dump],
             mkLoop d1 (ls_curTime st) (ls_frame_num st + 1)
                    (ls_time_calls st) (ls_polls st) false)
  else
    match main_loop true glfwGetTime events fuel
            (mkLoop d1 (ls_curTime st) (ls_frame_num st + 1)
                    (ls_time_calls st) (S (ls_polls st))
                    (poll_events (events (ls_polls st)) false))
    with
    | None => None
    | Some (calls, st') =>
        Some (frame :: dump :: glfwSwapBuffers :: glfwPollEvents :: calls,
              st')
    end.
Proof.
  intros Hflag. cbn [main_loop]. rewrite Hflag. cbv zeta.
  rewrite render_and_step_eq.
  pose proof (last_frame_dec (ls_frame_num st)) as Hdec.
  destruct (Req_dec_T _ _); rewrite <- Hdec; reflexivity.
Qed.

(** From frame number [120 - r] the loop ends within [r] frames, whatever
    the events. *)
Lemma dump_loop_ends r : forall st fuel,
  ls_frame_num st = (120 - Z.of_nat r)%Z ->
  (1 <= r)%nat ->
  (r < fuel)%nat ->
  exists calls st',
    main_loop true glfwGetTime events fuel st = Some (calls, st') /\
    (length (frames_of calls) <= r)%nat /\
    dumps_of calls =
      map (fun k => frame_path (ls_frame_num st + Z.of_nat k))
          (seq 0 (length (frames_of calls))).
Proof.
  induction r as [|r IH]; intros st fuel Hnum Hr Hfuel; [lia|].
  destruct fuel as [|fuel]; [lia|].
  destruct (ls_should_close st) eqn:Hflag.
  - cbn [main_loop]. rewrite Hflag. eexists _, _.
    split; [reflexivity|]. split; [cbn; lia|reflexivity].
  - rewrite (dump_step fuel st Hflag). cbv zeta.
    destruct (Z.eqb_spec (ls_frame_num st + 1) 120) as [Hlast|Hmore].
    + eexists _, _. split; [reflexivity|].
      cbn [frames_of dumps_of flat_map app length seq map]. split; [lia|].
      now rewrite Z.add_0_r.
    + set (st1 := mkLoop _ _ _ _ _ _).
      destruct (IH st1 fuel) as (calls & st' & Hloop & Hlen & Hdumps).
      * subst st1. cbn [ls_frame_num]. lia.
      * lia.
      * lia.
      * rewrite Hloop. eexists _, _. split; [reflexivity|].
        cbn [frames_of dumps_of flat_map app length].
        fold (frames_of calls). fold (dumps_of calls).
        split; [lia|].
        rewrite Hdumps. cbn [seq map]. rewrite Z.add_0_r. f_equal.
        rewrite <- seq_shift, map_map. apply map_ext. intros k.
        subst st1. cbn [ls_frame_num]. f_equal. lia.
Qed.

(** From frame number [120 - r], with no closing event, the loop draws [r]
    frames, a fortieth of a second of clock apart. *)
Lemma dump_loop_uninterrupted r : forall st fuel,
  ls_frame_num st = (120 - Z.of_nat r)%Z ->
  (1 <= r)%nat ->
  (r <= fuel)%nat ->
  ls_should_close st = false ->
  (forall k, poll_events (events k) false = false) ->
  exists calls st',
    main_loop true glfwGetTime events fuel st = Some (calls, st') /\
    frames_of calls =
      map (fun k => render (at_time (ls_demo st)
                              (cur_time_ (ls_demo st) + INR k / 40)))
          (seq 0 r) /\
    cur_time_ (ls_demo st') = cur_time_ (ls_demo st) + INR r / 40 /\
    ls_polls st' = (ls_polls st + (r - 1))%nat.
Proof.
  induction r as [|r IH]; intros st fuel Hnum Hr Hfuel Hflag Hno; [lia|].
  destruct fuel as [|fuel]; [lia|].
  rewrite (dump_step fuel st Hflag). cbv zeta.
  destruct (Z.eqb_spec (ls_frame_num st + 1) 120) as [Hlast|Hmore].
  - assert (r = 0%nat) by lia. subst r.
    eexists _, _. split; [reflexivity|].
    cbn [frames_of flat_map app seq map ls_demo ls_polls at_time cur_time_
         INR].
    split; [|split; [lra|lia]].
    replace (cur_time_ (ls_demo st) + 0 / 40) with (cur_time_ (ls_demo st))
      by lra.
    now rewrite at_time_same.
  - set (st1 := mkLoop _ _ _ _ _ _).
    destruct (IH st1 fuel)
      as (calls & st' & Hloop & Hframes & Hclock & Hpolls).
    + subst st1. cbn [ls_frame_num]. lia.
    + lia.
    + lia.
    + subst st1. cbn [ls_should_close]. apply Hno.
    + exact Hno.
    + rewrite Hloop. eexists _, _. split; [reflexivity|].
      cbn [frames_of flat_map app]. fold (frames_of calls).
      rewrite Hframes, Hclock, Hpolls. subst st1.
      cbn [ls_demo ls_polls at_time cur_time_]. split; [|split; [|lia]].
      * change (seq 0 (S r)) with (0%nat :: seq 1 r).
        rewrite <- seq_shift. cbn [map]. rewrite map_map. f_equal.
        -- replace (cur_time_ (ls_demo st) + INR 0 / 40)
             with (cur_time_ (ls_demo st)) by (simpl; lra).
           now rewrite at_time_same.
        -- apply map_ext. intros k. rewrite at_time_at_time.
           f_equal. f_equal. rewrite S_INR. lra.
      * rewrite S_INR. lra.
Qed.

End DumpLoop.

(** ** The names of the dumped files *)

Lemma string_length_append a b :
  String.length (String.append a b) = (String.length a + String.length b)%nat.
Proof. induction a as [|c a IH]; simpl; [reflexivity|]. now rewrite IH. Qed.

Lemma string_append_assoc a b c :
  String.append (String.append a b) c = String.append a (String.append b c).
Proof. induction a as [|x a IH]; simpl; [reflexivity|]. now rewrite IH. Qed.

Lemma zeros_length k : String.length (zeros k) = k.
Proof. induction k as [|k IH]; simpl; [reflexivity|]. now rewrite IH. Qed.

Lemma digit_char_spec d :
  (0 <= d < 10)%Z ->
  is_digit (digit_char d) = true /\
  (Z.of_nat (Ascii.nat_of_ascii (digit_char d)) - 48 = d)%Z.
Proof.
  intros Hd. unfold is_digit, digit_char.
  rewrite Ascii.nat_ascii_embedding by lia.
  split; [|lia].
  apply andb_true_intro. split; apply Nat.leb_le; lia.
Qed.

Lemma decimal_digits_length fuel : forall n acc k,
  (0 <= n < 10 ^ Z.of_nat k)%Z -> (1 <= k)%nat ->
  ((1 + String.length acc <= String.length (decimal_digits fuel n acc))%nat
   \/ fuel = 0%nat) /\
  (String.length (decimal_digits fuel n acc) <= k + String.length acc)%nat.
Proof.
  induction fuel as [|fuel IH]; intros n acc k Hn Hk; simpl.
  - split; [now right|lia].
  - destruct (Z.eqb_spec (n / 10) 0) as [Hz|Hz]; simpl.
    + split; [left|]; lia.
    + assert (Hk2 : (2 <= k)%nat).
      { destruct k as [|[|k]]; [lia| |lia].
        change (10 ^ Z.of_nat 1)%Z with 10%Z in Hn.
        exfalso. apply Hz. apply Z.div_small. lia. }
      destruct (IH (n / 10)%Z (String (digit_char (n mod 10)) acc)
                  (k - 1)%nat) as [IH1 IH2].
      * split; [apply Z.div_pos; lia|].
        apply Z.div_lt_upper_bound; [lia|].
        replace (10 * 10 ^ Z.of_nat (k - 1))%Z with (10 ^ Z.of_nat k)%Z; [lia|].
        replace (Z.of_nat k) with (Z.succ (Z.of_nat (k - 1))) by lia.
        rewrite Z.pow_succ_r by lia. reflexivity.
      * lia.
      * simpl in IH1, IH2. split; [|lia].
        destruct IH1 as [IH1| ->]; [left; lia|]. left. simpl. lia.
Qed.

Lemma read_decimal_digits fuel : forall n acc rest,
  (0 <= n < 10 ^ Z.of_nat fuel)%Z ->
  read_decimal (String.append (decimal_digits fuel n acc) rest) 0 =
  read_decimal (String.append acc rest) n.
Proof.
  induction fuel as [|fuel IH]; intros n acc rest Hn.
  - change (10 ^ Z.of_nat 0)%Z with 1%Z in Hn.
    assert (n = 0%Z) by lia. now subst n.
  - assert (Hmod : (0 <= n mod 10 < 10)%Z) by (apply Z.mod_pos_bound; lia).
    destruct (digit_char_spec (n mod 10) Hmod) as [Hdig Hval].
    assert (Hstep : forall v,
               read_decimal
                 (String.append (String (digit_char (n mod 10)) acc) rest) v
               = read_decimal (String.append acc rest)
                   (10 * v + n mod 10)%Z).
    { intros v. cbn [String.append read_decimal]. now rewrite Hdig, Hval. }
    cbn [decimal_digits]. cbv zeta.
    destruct (Z.eqb_spec (n / 10) 0) as [Hz|Hz].
    + rewrite Hstep. f_equal.
      rewrite (Z.div_mod n 10) at 2 by lia. lia.
    + rewrite IH.
      * rewrite Hstep. f_equal. rewrite (Z.div_mod n 10) at 3 by lia. lia.
      * split; [apply Z.div_pos; lia|].
        apply Z.div_lt_upper_bound; [lia|].
        replace (10 * 10 ^ Z.of_nat fuel)%Z with (10 ^ Z.of_nat (S fuel))%Z;
          [lia|].
        rewrite Nat2Z.inj_succ, Z.pow_succ_r by lia. reflexivity.
Qed.

Lemma decimal_fuel n :
  (0 <= n)%Z -> (n < 10 ^ Z.of_nat (S (Z.to_nat (Z.log2 n))))%Z.
Proof.
  intros Hn. destruct (Z.eq_dec n 0) as [->|Hpos]; [reflexivity|].
  pose proof (Z.log2_spec n ltac:(lia)) as [_ Hlt].
  pose proof (Z.log2_nonneg n) as Hlog.
  replace (Z.of_nat (S (Z.to_nat (Z.log2 n)))) with (Z.succ (Z.log2 n)) by lia.
  apply Z.lt_le_trans with (1 := Hlt).
  apply Z.pow_le_mono_l. lia.
Qed.

Lemma read_decimal_zeros k s :
  read_decimal (String.append (zeros k) s) 0 = read_decimal s 0.
Proof.
  induction k as [|k IH]; [reflexivity|].
  cbn [zeros String.append read_decimal].
  destruct (digit_char_spec 0 ltac:(lia)) as [-> ->]. exact IH.
Qed.

Lemma read_frame_path n :
  (0 <= n)%Z -> read_decimal (frame_path n) 0 = n.
Proof.
  intros Hn. unfold frame_path, format_05d.
  destruct (Z.ltb_spec n 0) as [|_]; [lia|].
  unfold pad_zeros. rewrite string_append_assoc, read_decimal_zeros.
  unfold decimal. rewrite read_decimal_digits.
  - reflexivity.
  - split; [exact Hn|now apply decimal_fuel].
Qed.

Lemma decimal_length n k :
  (0 <= n < 10 ^ Z.of_nat k)%Z -> (1 <= k)%nat ->
  (1 <= String.length (decimal n) <= k)%nat.
Proof.
  intros Hn Hk. unfold decimal.
  destruct (decimal_digits_length (S (Z.to_nat (Z.log2 n))) n EmptyString k
              Hn Hk) as [[H1|H1] H2]; [|discriminate].
  change (String.length EmptyString) with 0%nat in H1, H2. lia.
Qed.

Lemma frame_path_length n k :
  (0 <= n < 10 ^ Z.of_nat k)%Z -> (1 <= k)%nat ->
  (9 <= String.length (frame_path n) <= Nat.max 5 k + 4)%nat.
Proof.
  intros Hn Hk. unfold frame_path, format_05d.
  destruct (Z.ltb_spec n 0) as [|_]; [lia|].
  unfold pad_zeros.
  rewrite !string_length_append, zeros_length.
  pose proof (decimal_length n k Hn Hk).
  change (String.length ".ppm") with 4%nat. lia.
Qed.

(** X13. The names of the dumped files. For a frame number that an [int]
    can hold and that is not negative, the name has at most 14 characters, so
    it fits the 80 bytes of [path] with its terminating zero; up to frame
    99999 it has exactly 9. The number can be read back from the name, so
    different frames are written to different files. *)
Theorem X13_frame_paths (n m : Z) :
  (0 <= n < 2 ^ 31)%Z ->
  (0 <= m)%Z ->
  (String.length (frame_path n) <= 14)%nat /\
  ((n < 100000)%Z -> String.length (frame_path n) = 9%nat) /\
  read_decimal (frame_path n) 0 = n /\
  (frame_path n = frame_path m -> n = m).
Proof.
  intros Hn Hm. split; [|split; [|split]].
  - pose proof (frame_path_length n 10 ltac:(simpl; lia) ltac:(lia)). lia.
  - intros H5.
    pose proof (frame_path_length n 5 ltac:(simpl; lia) ltac:(lia)). lia.
  - apply read_frame_path. lia.
  - intros H. rewrite <- (read_frame_path n), <- (read_frame_path m) by lia.
    now rewrite H.
Qed.

Lemma X13_frame_paths_witness :
  (0 <= 119 < 2 ^ 31)%Z /\
  (String.length (frame_path 119) <= 14)%nat /\
  read_decimal (frame_path 119) 0 = 119%Z.
Proof.
  assert (Hn : (0 <= 119 < 2 ^ 31)%Z) by (simpl; lia).
  split; [exact Hn|].
  destruct (X13_frame_paths 119 7 Hn ltac:(lia)) as (Hlen & _ & Hread & _).
  split; [exact Hlen|exact Hread].
Defined.

(** ** A run with [DUMP_FRAMES] *)

Lemma NoDup_map_injective {A B} (f : A -> B) l :
  (forall a b, f a = f b -> a = b) -> NoDup l -> NoDup (map f l).
Proof.
  intros Hinj. induction 1 as [|a l Ha _ IH]; simpl; constructor;
    [|exact IH].
  intros Hin. apply in_map_iff in Hin. destruct Hin as (b & Hb & Hin).
  apply Hinj in Hb. now subst b.
Qed.

(** X14. With [DUMP_FRAMES], [main] always ends: whatever the events, after
    at most 120 frames ([CycleDuration] times [FramesPerSecond]). Each frame
    drawn is written to a file, and the files are numbered from 0 in the
    order of the frames. *)
Theorem X14_dump_run_ends (glfwGetTime : nat -> R)
    (events : nat -> list window_event) (RAND_MAX : Z) (rand_seq : nat -> Z)
    (hexagon0 diamond0 : Z -> Z -> R) (fuel : nat) :
  (120 < fuel)%nat ->
  exists calls,
    main true glfwGetTime events RAND_MAX rand_seq hexagon0 diamond0 fuel
      = Some calls /\
    (length (frames_of calls) <= 120)%nat /\
    dumps_of calls =
      map (fun k => frame_path (Z.of_nat k))
          (seq 0 (length (frames_of calls))).
Proof.
  intros Hfuel. unfold main. rewrite Demo_new_eq.
  set (d := snd (fst (Demo_new _ _ _ _ _ _ _))).
  destruct (dump_loop_ends glfwGetTime events 120 (mkLoop d 0 0 0 0 false)
              fuel) as (calls & st' & Hloop & Hlen & Hdumps);
    [reflexivity|lia|exact Hfuel|].
  rewrite Hloop. eexists. split; [reflexivity|].
  cbn [frames_of dumps_of flat_map app].
  fold (frames_of calls). fold (dumps_of calls).
  split; [exact Hlen|exact Hdumps].
Qed.

Lemma X14_dump_run_ends_witness :
  exists calls,
    main true (fun _ => 0) (fun _ => [key_event 65 0 GLFW_PRESS 0])
         glibc_RAND_MAX lcg_seq (fun _ _ => 0) (fun _ _ => 0) 121
      = Some calls /\
    (length (frames_of calls) <= 120)%nat.
Proof.
  destruct (X14_dump_run_ends (fun _ => 0)
              (fun _ => [key_event 65 0 GLFW_PRESS 0])
              glibc_RAND_MAX lcg_seq (fun _ _ => 0) (fun _ _ => 0) 121
              ltac:(lia)) as (calls & Hmain & Hlen & _).
  exists calls. split; [exact Hmain|exact Hlen].
Defined.

(** X15. A run with [DUMP_FRAMES] that is not closed. The loop draws exactly
    120 frames, frame [k] (from 0) showing the scene at clock [k / 40], and
    writes them to the 120 files [00000.ppm] to [00119.ppm], which are
    distinct; it neither swaps buffers nor polls after the last frame. When
    the loop ends the clock has advanced by [CycleDuration], which is 3. *)
Theorem X15_dump_run (glfwGetTime : nat -> R)
    (events : nat -> list window_event) (d : Demo) (fuel : nat) :
  (forall k, ~ closes (events k)) ->
  (120 < fuel)%nat ->
  exists calls st',
    main_loop true glfwGetTime events fuel (mkLoop d 0 0 0 0 false)
      = Some (calls, st') /\
    frames_of calls =
      map (fun k => render (at_time d (cur_time_ d + INR k / 40)))
          (seq 0 120) /\
    dumps_of calls = map (fun k => frame_path (Z.of_nat k)) (seq 0 120) /\
    NoDup (dumps_of calls) /\
    nth_error (dumps_of calls) 0 = Some "00000.ppm"%string /\
    nth_error (dumps_of calls) 119 = Some "00119.ppm"%string /\
    cur_time_ (ls_demo st') = cur_time_ d + CycleDuration /\
    ls_polls st' = 119%nat.
Proof.
  intros Hno Hfuel.
  assert (Hpoll : forall k, poll_events (events k) false = false)
    by (intros k; now apply poll_events_not_closing).
  destruct (dump_loop_uninterrupted glfwGetTime events 120
              (mkLoop d 0 0 0 0 false) fuel)
    as (calls & st' & Hloop & Hframes & Hclock & Hpolls);
    [reflexivity|lia|lia|reflexivity|exact Hpoll|].
  destruct (dump_loop_ends glfwGetTime events 120 (mkLoop d 0 0 0 0 false)
              fuel) as (calls2 & st2 & Hloop2 & _ & Hdumps);
    [reflexivity|lia|exact Hfuel|].
  rewrite Hloop in Hloop2. injection Hloop2 as <- <-.
  cbn [ls_demo ls_frame_num] in *.
  rewrite Hframes, length_map, length_seq in Hdumps.
  assert (Hfiles : dumps_of calls =
                   map (fun k => frame_path (Z.of_nat k)) (seq 0 120))
    by exact Hdumps.
  clear Hdumps.
  exists calls, st'. split; [exact Hloop|]. split; [exact Hframes|].
  split; [exact Hfiles|]. rewrite Hfiles.
  split; [|split; [reflexivity|split; [reflexivity|split]]].
  - apply NoDup_map_injective; [|apply seq_NoDup].
    intros a b Hab.
    assert (H : Z.of_nat a = Z.of_nat b); [|lia].
    rewrite <- (read_frame_path (Z.of_nat a)),
      <- (read_frame_path (Z.of_nat b)) by lia.
    now rewrite Hab.
  - rewrite Hclock. unfold CycleDuration. simpl INR. lra.
  - exact Hpolls.
Qed.

Lemma X15_dump_run_witness :
  exists calls st',
    main_loop true (fun _ => 0) (fun _ => [key_event 65 0 GLFW_PRESS 0]) 121
              (mkLoop demo_zero 0 0 0 0 false)
      = Some (calls, st') /\
    cur_time_ (ls_demo st') = cur_time_ demo_zero + CycleDuration.
Proof.
  destruct (X15_dump_run (fun _ => 0)
              (fun _ => [key_event 65 0 GLFW_PRESS 0]) demo_zero 121)
    as (calls & st' & Hloop & _ & _ & _ & _ & _ & Hclock & _).
  - intros k (e & [<-|[]] & [Hc|(s & m & Hc)]); discriminate Hc.
  - lia.
  - exists calls, st'. split; [exact Hloop|exact Hclock].
Defined.
